(** * AvatarViewer: animation retargeting and playback control

    A shallow embedding of [client/src/components/AvatarViewer.tsx]:
    the pure function [retargetAnimation] and the stateful part of the
    component (the refs [mixerRef], [actionsRef], [currentActionRef], the
    closure counter [loadedAnimations] and the flag [isLoading]) driven by
    the load callbacks, the buttons and the render loop.

    three.js is an external collaborator.  Its objects are modelled as far
    as the component uses them:
    - a [KeyframeTrack] is its runtime class, its name and its two sample
      arrays; the constructors of tracks and clips store their arguments;
    - an [AnimationAction] is its clip, its local clock [time] and whether
      it is scheduled in the mixer; [play] schedules, [stop] unschedules
      and resets, [reset] rewinds the clock;
    - JavaScript numbers are idealised as rationals; they are only copied,
      compared with zero, or added by the mixer clock.
    Strings are sequences of code units; the literals involved are ASCII.
    Registry keys are own properties of the [actionsRef] object; names
    that [Object.prototype] answers to are not among those the component
    uses. *)

From Stdlib Require Import String Ascii List QArith Lia.
From stdpp Require Import gmap strings list.
Import ListNotations.
Local Close Scope Q_scope.
Local Open Scope string_scope.

(** ** JavaScript string primitives used by the component *)

(** [s.endsWith(suf)]: some tail of [s] is [suf]. *)
Fixpoint endsWith (s suf : string) : bool :=
  String.eqb s suf ||
  match s with
  | EmptyString => false
  | String _ s' => endsWith s' suf
  end.

(** Matching the anchored literal pattern [/^p/] against [s]: the text
    after the match, when there is one. *)
Fixpoint match_prefix (p s : string) : option string :=
  match p with
  | EmptyString => Some s
  | String c p' =>
      match s with
      | EmptyString => None
      | String d s' => if Ascii.eqb c d then match_prefix p' s' else None
      end
  end.

(** [s.replace(/^p/, '')]. *)
Definition replace_prefix (p s : string) : string :=
  match match_prefix p s with
  | Some rest => rest
  | None => s
  end.

(** The property part of a track name [<bone>.<property>]: the text after
    the last dot. *)
Fixpoint property_of (s : string) : option string :=
  match s with
  | EmptyString => None
  | String c s' =>
      match property_of s' with
      | Some p => Some p
      | None => if Ascii.eqb c "." then Some s' else None
      end
  end.

(** ** Tracks and clips *)

(** The runtime class of a track ([track.constructor]). *)
Inductive TrackKind : Set :=
  | QuaternionKeyframeTrack
  | VectorKeyframeTrack
  | NumberKeyframeTrack
  | ColorKeyframeTrack
  | BooleanKeyframeTrack
  | StringKeyframeTrack.

Record KeyframeTrack : Set := mkTrack {
  track_constructor : TrackKind;
  track_name : string;
  track_times : list Q;
  track_values : list Q
}.

Record AnimationClip : Set := mkClip {
  clip_name : string;
  clip_duration : Q;
  clip_tracks : list KeyframeTrack
}.

(** ** [retargetAnimation] *)

Definition mixamorig : string := "mixamorig".

(** The test guarding [continue]. *)
Definition skipped (name : string) : bool :=
  endsWith name ".position" || endsWith name ".scale".

(** One iteration of the [for ... of clip.tracks] loop, threading
    [newTracks]. *)
Definition retarget_track (newTracks : list KeyframeTrack) (track : KeyframeTrack)
  : list KeyframeTrack :=
  if skipped (track_name track) then newTracks
  else
    let newName := replace_prefix mixamorig (track_name track) in
    let newTrack :=
      mkTrack (track_constructor track) newName
              (track_times track) (track_values track) in
    (newTracks ++ [newTrack])%list.

Definition retargetAnimation (clip : AnimationClip) : AnimationClip :=
  let newTracks := fold_left retarget_track (clip_tracks clip) [] in
  mkClip (clip_name clip) (clip_duration clip) newTracks.

(** Vocabulary of the data model: the property of a track is read off the
    suffix of its name. *)
Definition is_position (name : string) : bool := endsWith name ".position".
Definition is_scale (name : string) : bool := endsWith name ".scale".
Definition is_rotation (name : string) : bool := endsWith name ".quaternion".

(** A clip of the data model: every track animates a position, a rotation
    or a scale. *)
Definition three_property_clip (clip : AnimationClip) : Prop :=
  Forall (fun t => is_position (track_name t) = true
                   \/ is_rotation (track_name t) = true
                   \/ is_scale (track_name t) = true)
         (clip_tracks clip).

(** [s.startsWith(p)], as a proposition. *)
Definition starts_with (p s : string) : Prop := exists rest, s = p ++ rest.

(** No track name of the clip starts with the source namespace. *)
Definition prefix_free (clip : AnimationClip) : Prop :=
  Forall (fun t => ~ starts_with mixamorig (track_name t)) (clip_tracks clip).

(** What the loop does to a retained track. *)
Definition renamed (track : KeyframeTrack) : KeyframeTrack :=
  mkTrack (track_constructor track)
          (replace_prefix mixamorig (track_name track))
          (track_times track) (track_values track).

Definition retained (track : KeyframeTrack) : bool :=
  negb (skipped (track_name track)).

(** A clip as the FBX loader delivers it: rotation, position and scale
    channels under the source namespace. *)
Definition mixamo_clip (name : string) : AnimationClip :=
  mkClip name 1%Q
    [ mkTrack QuaternionKeyframeTrack "mixamorigHips.quaternion"
        [0%Q; 1%Q] [0%Q; 0%Q; 0%Q; 1%Q; 0%Q; 1%Q; 0%Q; 0%Q];
      mkTrack VectorKeyframeTrack "mixamorigHips.position"
        [0%Q; 1%Q] [0%Q; 1%Q; 0%Q; 0%Q; 2%Q; 0%Q];
      mkTrack VectorKeyframeTrack "mixamorigHips.scale"
        [0%Q] [1%Q; 1%Q; 1%Q];
      mkTrack QuaternionKeyframeTrack "mixamorigSpine.quaternion"
        [0%Q; 1%Q] [0%Q; 0%Q; 0%Q; 1%Q; 1%Q; 0%Q; 0%Q; 0%Q] ].

(** A clip already expressed in the avatar's bone names. *)
Definition avatar_clip : AnimationClip :=
  mkClip "idle" 1%Q
    [ mkTrack QuaternionKeyframeTrack "Hips.quaternion"
        [0%Q; 1%Q] [0%Q; 0%Q; 0%Q; 1%Q; 0%Q; 1%Q; 0%Q; 0%Q];
      mkTrack VectorKeyframeTrack "Hips.position"
        [0%Q] [0%Q; 1%Q; 0%Q] ].

(** ** Actions and the mixer *)

(** An action of the mixer: the clip it plays, its local clock
    ([action.time]) and whether the mixer currently runs it. *)
Record AnimationAction : Set := mkAction {
  action_clip : AnimationClip;
  action_time : Q;
  action_running : bool
}.

(** The mixer holds its actions in creation order; an action object is
    referred to by its position, so that the registry and the
    current-action ref may alias the same action. *)
Abbreviation AnimationMixer := (list AnimationAction).

(** [mixer.clipAction(clip)] for a clip the mixer has not seen: a new,
    idle action at the start of the clip. *)
Definition clipAction (clip : AnimationClip) (mixer : AnimationMixer)
  : nat * AnimationMixer :=
  (length mixer, (mixer ++ [mkAction clip 0%Q false])%list).

(** [action.play()] *)
Definition play (action : nat) (mixer : AnimationMixer) : AnimationMixer :=
  alter (fun a => mkAction (action_clip a) (action_time a) true) action mixer.

(** [action.reset()] *)
Definition reset (action : nat) (mixer : AnimationMixer) : AnimationMixer :=
  alter (fun a => mkAction (action_clip a) 0%Q (action_running a)) action mixer.

(** [action.stop()]: take the action off the mixer, then [reset] it. *)
Definition stop (action : nat) (mixer : AnimationMixer) : AnimationMixer :=
  reset action
    (alter (fun a => mkAction (action_clip a) (action_time a) false) action mixer).

(** [mixer.update(delta)]: the clock of every running action advances by
    [delta].  What three.js does when a clock passes the end of its clip
    is outside this model. *)
Definition update (delta : Q) (mixer : AnimationMixer) : AnimationMixer :=
  map (fun a =>
         if action_running a
         then mkAction (action_clip a) (Qred (action_time a + delta)) true
         else a)
      mixer.

(** ** The component state *)

Record Viewer : Type := mkViewer {
  mixerRef : option AnimationMixer;
  actionsRef : gmap string nat;
  currentActionRef : option nat;
  loadedAnimations : nat;
  isLoading : bool;
  error : option string
}.

Definition totalAnimations : nat := 3.

(** The component as mounted: nothing loaded yet. *)
Definition mounted : Viewer := mkViewer None ∅ None 0 true None.

(** Success callback of the avatar load: the mixer is created and the
    animation loads are issued with a fresh counter. *)
Definition onModelLoaded (v : Viewer) : Viewer :=
  mkViewer (Some []) (actionsRef v) (currentActionRef v) 0 (isLoading v) (error v).

(** Failure callback of the avatar load. *)
Definition onModelError (v : Viewer) : Viewer :=
  mkViewer (mixerRef v) (actionsRef v) (currentActionRef v) (loadedAnimations v)
           false (Some "Failed to load avatar model").

(** [onAnimationLoaded(name, fbxScene)], with [animations] standing for
    [fbxScene.animations].  The callback closes over the mixer, so it
    exists only once the mixer does. *)
Definition onAnimationLoaded (name : string) (animations : list AnimationClip)
  (v : Viewer) : Viewer :=
  match mixerRef v with
  | None => v
  | Some mixer =>
      match head animations with
      | None => v
      | Some animation =>
          let retargetedClip := retargetAnimation animation in
          let '(action, mixer) := clipAction retargetedClip mixer in
          let actions := <[name := action]> (actionsRef v) in
          let loaded := S (loadedAnimations v) in
          if Nat.eqb loaded totalAnimations then
            match actions !! "walking" with
            | Some walking =>
                mkViewer (Some (play walking mixer)) actions (Some walking)
                         loaded false (error v)
            | None =>
                mkViewer (Some mixer) actions (currentActionRef v)
                         loaded false (error v)
            end
          else
            mkViewer (Some mixer) actions (currentActionRef v)
                     loaded (isLoading v) (error v)
      end
  end.

(** [playAnimation(animationName)] *)
Definition playAnimation (animationName : string) (v : Viewer) : Viewer :=
  match mixerRef v with
  | None => v
  | Some mixer =>
      let mixer :=
        match currentActionRef v with
        | Some current => stop current mixer
        | None => mixer
        end in
      match actionsRef v !! animationName with
      | Some action =>
          mkViewer (Some (play action (reset action mixer))) (actionsRef v)
                   (Some action) (loadedAnimations v) (isLoading v) (error v)
      | None =>
          mkViewer (Some mixer) (actionsRef v) (currentActionRef v)
                   (loadedAnimations v) (isLoading v) (error v)
      end
  end.

(** One turn of the render loop: [mixer.update(delta)]. *)
Definition animate (delta : Q) (v : Viewer) : Viewer :=
  mkViewer (update delta <$> mixerRef v) (actionsRef v) (currentActionRef v)
           (loadedAnimations v) (isLoading v) (error v).

(** ** Runs of the component *)

(** What can happen once the avatar is loaded: an animation load
    completes, a button is pressed, a frame is rendered. *)
Inductive Event : Type :=
  | AnimationLoaded (name : string) (animations : list AnimationClip)
  | Pressed (name : string)
  | Frame (delta : Q).

Definition handle (v : Viewer) (e : Event) : Viewer :=
  match e with
  | AnimationLoaded name animations => onAnimationLoaded name animations v
  | Pressed name => playAnimation name v
  | Frame delta => animate delta v
  end.

Definition run (v : Viewer) (events : list Event) : Viewer :=
  fold_left handle events v.

(** The state in which the three animation loads are issued. *)
Definition avatar_loaded : Viewer := onModelLoaded mounted.

(** The three loads of the component, by name. *)
Definition expected : list string := ["walking"; "sitting"; "standing_up"].

Definition is_load (e : Event) : bool :=
  match e with AnimationLoaded _ _ => true | _ => false end.

(** A load that delivers a clip. *)
Definition delivers (e : Event) : bool :=
  match e with
  | AnimationLoaded _ (_ :: _) => true
  | _ => false
  end.

Definition load_name (e : Event) : option string :=
  match e with AnimationLoaded name _ => Some name | _ => None end.

(** ** Observations *)

Definition action_at (v : Viewer) (action : nat) : option AnimationAction :=
  match mixerRef v with
  | Some mixer => mixer !! action
  | None => None
  end.

(** The action registered under a name. *)
Definition registered (v : Viewer) (name : string) : option AnimationAction :=
  match actionsRef v !! name with
  | Some action => action_at v action
  | None => None
  end.

(** The action the current-action ref points to. *)
Definition current (v : Viewer) : option AnimationAction :=
  match currentActionRef v with
  | Some action => action_at v action
  | None => None
  end.

(** The actions the mixer runs, by position. *)
Definition running (v : Viewer) : list nat :=
  match mixerRef v with
  | Some mixer =>
      List.filter (fun i => match mixer !! i with
                            | Some a => action_running a
                            | None => false
                            end)
                  (seq 0 (length mixer))
  | None => []
  end.

(** Handles in the refs denote actions of the mixer. *)
Definition handles_valid (v : Viewer) : Prop :=
  exists mixer, mixerRef v = Some mixer
    /\ (forall name action, actionsRef v !! name = Some action -> action < length mixer)
    /\ (forall action, currentActionRef v = Some action -> action < length mixer).

(** Only the action the ref points to may run. *)
Definition only_current_runs (v : Viewer) : Prop :=
  forall action a, action_at v action = Some a -> action_running a = true ->
                   currentActionRef v = Some action.

(** The names under which the loads of a run registered an action. *)
Definition delivered_names (events : list Event) : list string :=
  omap (fun e => if delivers e then load_name e else None) events.

(** The names of the loads that completed in a run. *)
Definition completed_names (events : list Event) : list string :=
  omap load_name events.

(** The loads as the component issues them: each of the three names, at
    most once. *)
Definition one_load_per_name (events : list Event) : Prop :=
  NoDup (completed_names events)
  /\ (forall name, name ∈ completed_names events -> name ∈ expected).

(** No action has been selected and the mixer runs none. *)
Definition nothing_selected (v : Viewer) : Prop :=
  currentActionRef v = None
  /\ (forall action a, action_at v action = Some a ->
                       action_running a = false /\ action_time a = 0%Q).

(** The flag is up exactly while the counter is below three. *)
Definition counting (v : Viewer) : Prop :=
  is_Some (mixerRef v) /\ isLoading v = Nat.ltb (loadedAnimations v) totalAnimations.

(** Fewer than three animations registered: fewer than three loads have
    delivered a clip; or, the loads being one per name, an expected name
    is missing from the registry. *)
Definition fewer_than_three_registered (events : list Event) : Prop :=
  length (List.filter delivers events) < totalAnimations
  \/ (one_load_per_name events
      /\ exists name, name ∈ expected
                      /\ actionsRef (run avatar_loaded events) !! name = None).

(** ** Further vocabulary *)

(** A track as authored against the source skeleton: the bone name under
    the source namespace. *)
Definition prefixed (track : KeyframeTrack) : KeyframeTrack :=
  mkTrack (track_constructor track) (mixamorig ++ track_name track)
          (track_times track) (track_values track).

(** The [catch] branch of the effect: the viewer could not be set up. *)
Definition onInitError (v : Viewer) : Viewer :=
  mkViewer (mixerRef v) (actionsRef v) (currentActionRef v) (loadedAnimations v)
           false (Some "Failed to initialize 3D viewer").

(** How the effect went: set-up failed, the avatar is still loading, its
    load failed, or it loaded and events followed. *)
Inductive Outcome : Type :=
  | InitFailed
  | AvatarPending
  | AvatarFailed
  | AvatarLoaded (events : list Event).

Definition state_of (o : Outcome) : Viewer :=
  match o with
  | InitFailed => onInitError mounted
  | AvatarPending => mounted
  | AvatarFailed => onModelError mounted
  | AvatarLoaded events => run avatar_loaded events
  end.

(** The two overlays of the rendered component: [isLoading && ...] and
    [error && ...]; a string is truthy unless empty. *)
Definition showsLoading (v : Viewer) : bool := isLoading v.

Definition showsError (v : Viewer) : bool :=
  match error v with
  | Some message => negb (String.eqb message "")
  | None => false
  end.

(** The names the three buttons pass to [playAnimation]. *)
Definition buttons : list string := ["walking"; "sitting"; "standing_up"].

(** An action that does not run is at the start of its clip. *)
Definition idle_at_zero (v : Viewer) : Prop :=
  forall action a, action_at v action = Some a ->
                   action_running a = false -> action_time a = 0%Q.

(** No button is pressed while the component is still loading. *)
Definition no_press_while_loading (events : list Event) : Prop :=
  forall pre name post,
    events = (pre ++ Pressed name :: post)%list ->
    isLoading (run avatar_loaded pre) = false.

(** The retargeted clips the loads of a run delivered, in arrival order. *)
Definition delivered_clips (events : list Event) : list AnimationClip :=
  omap (fun e => match e with
                 | AnimationLoaded _ (animation :: _) =>
                     Some (retargetAnimation animation)
                 | _ => None
                 end)
       events.

(** The clip of the last load that delivered one under a name. *)
Definition last_delivered (name : string) (events : list Event)
  : option AnimationClip :=
  fold_left (fun found e =>
               match e with
               | AnimationLoaded n (animation :: _) =>
                   if String.eqb n name then Some animation else found
               | _ => found
               end)
            events None.

(** The three loads completing, each with a clip, sitting first. *)
Definition three_loads : list Event :=
  [ AnimationLoaded "sitting" [mixamo_clip "sitting"];
    AnimationLoaded "walking" [mixamo_clip "walking"];
    AnimationLoaded "standing_up" [mixamo_clip "standing_up"] ].

Definition is_press (e : Event) : bool :=
  match e with Pressed _ => true | _ => false end.

(** ** Facts about the string primitives *)

Lemma endsWith_refl (s : string) : endsWith s s = true.
Proof. destruct s; cbn [endsWith]; rewrite String.eqb_refl; reflexivity. Qed.

Lemma append_cons (c : ascii) (p s : string) :
  String c p ++ s = String c (p ++ s).
Proof. reflexivity. Qed.

Lemma endsWith_app (p s suf : string) :
  endsWith s suf = true -> endsWith (p ++ s) suf = true.
Proof.
  intros H. induction p as [|c p IH]; [exact H|].
  rewrite append_cons. cbn [endsWith]. rewrite IH. apply orb_true_r.
Qed.

Lemma endsWith_split (s suf : string) :
  endsWith s suf = true <-> exists pre, s = pre ++ suf.
Proof.
  split.
  - induction s as [|c s IH]; cbn [endsWith]; intros H.
    + rewrite orb_false_r in H. apply String.eqb_eq in H. exists "". now subst.
    + apply orb_true_iff in H as [H|H].
      * apply String.eqb_eq in H. exists "". now rewrite H.
      * destruct (IH H) as [pre ->]. now exists (String c pre).
  - intros [pre ->]. apply endsWith_app, endsWith_refl.
Qed.

Lemma match_prefix_Some (p s rest : string) :
  match_prefix p s = Some rest <-> s = p ++ rest.
Proof.
  revert s. induction p as [|c p IH]; intros s; cbn [match_prefix].
  - change ("" ++ rest) with rest. split; congruence.
  - rewrite append_cons. destruct s as [|d s]; [split; discriminate|].
    destruct (Ascii.eqb_spec c d) as [->|Hne].
    + rewrite IH. split; congruence.
    + split; [discriminate|]. intros [= -> _]. now destruct Hne.
Qed.

Lemma match_prefix_None (p s : string) :
  match_prefix p s = None <-> ~ starts_with p s.
Proof.
  unfold starts_with. split.
  - intros H [rest E]. apply match_prefix_Some in E. congruence.
  - intros H. destruct (match_prefix p s) as [rest|] eqn:E; [|reflexivity].
    exfalso. apply H. exists rest. now apply match_prefix_Some.
Qed.

Lemma replace_prefix_absent (p s : string) :
  ~ starts_with p s -> replace_prefix p s = s.
Proof.
  intros H. apply match_prefix_None in H. unfold replace_prefix. now rewrite H.
Qed.

Lemma replace_prefix_cases (p s : string) :
  (~ starts_with p s /\ replace_prefix p s = s)
  \/ s = p ++ replace_prefix p s.
Proof.
  unfold replace_prefix. destruct (match_prefix p s) as [rest|] eqn:E.
  - right. now apply match_prefix_Some.
  - left. split; [now apply match_prefix_None|reflexivity].
Qed.

(** Renaming never turns a name into one that ends with a suffix the
    original did not end with. *)
Lemma endsWith_replace_prefix (p s suf : string) :
  endsWith (replace_prefix p s) suf = true -> endsWith s suf = true.
Proof.
  destruct (replace_prefix_cases p s) as [[_ ->]|E]; [easy|].
  intros H. rewrite E. now apply endsWith_app.
Qed.

Lemma skipped_replace_prefix (s : string) :
  skipped s = false -> skipped (replace_prefix mixamorig s) = false.
Proof.
  unfold skipped. intros H. apply orb_false_iff in H as [H1 H2].
  apply orb_false_iff. split.
  - destruct (endsWith (replace_prefix mixamorig s) ".position") eqn:E; [|easy].
    apply endsWith_replace_prefix in E. congruence.
  - destruct (endsWith (replace_prefix mixamorig s) ".scale") eqn:E; [|easy].
    apply endsWith_replace_prefix in E. congruence.
Qed.

(** The namespace holds no dot, so a rotation name stays one. *)
Lemma is_rotation_replace_prefix (s : string) :
  is_rotation s = true -> is_rotation (replace_prefix mixamorig s) = true.
Proof.
  destruct (replace_prefix_cases mixamorig s) as [[_ ->]|E]; [easy|].
  intros H. rewrite E in H. exact H.
Qed.

Lemma property_of_replace_prefix (s : string) :
  property_of (replace_prefix mixamorig s) = property_of s.
Proof.
  destruct (replace_prefix_cases mixamorig s) as [[_ ->]|E]; [easy|].
  rewrite E at 2. unfold mixamorig at 2. rewrite !append_cons.
  change ("" ++ replace_prefix mixamorig s) with (replace_prefix mixamorig s).
  cbn [property_of].
  now destruct (property_of (replace_prefix mixamorig s)).
Qed.

Lemma length_append (p s : string) :
  String.length (p ++ s) = String.length p + String.length s.
Proof.
  induction p as [|c p IH]; [reflexivity|].
  rewrite append_cons. cbn [String.length]. now rewrite IH.
Qed.

(** Two suffixes of one string: the shorter is a suffix of the longer. *)
Lemma endsWith_both (s a b : string) :
  endsWith s a = true -> endsWith s b = true ->
  String.length a <= String.length b -> endsWith b a = true.
Proof.
  intros Ha Hb Hlen.
  apply endsWith_split in Ha as [p1 E1]. apply endsWith_split in Hb as [p2 E2].
  subst s. revert p1 E2. induction p2 as [|c p2 IH]; intros p1 E.
  - change ("" ++ b) with b in E. apply endsWith_split. now exists p1.
  - destruct p1 as [|d p1].
    + change ("" ++ a) with a in E. exfalso. subst a.
      rewrite append_cons in Hlen. cbn [String.length] in Hlen.
      rewrite length_append in Hlen. lia.
    + rewrite !append_cons in E. injection E as _ E. now apply (IH p1).
Qed.

Lemma rotation_not_skipped (n : string) :
  is_rotation n = true -> skipped n = false.
Proof.
  unfold is_rotation, skipped. intros Hq. apply orb_false_iff. split.
  - destruct (endsWith n ".position") eqn:E; [|easy].
    assert (H : endsWith ".quaternion" ".position" = true)
      by (apply (endsWith_both n); [exact E | exact Hq | cbn; lia]).
    discriminate H.
  - destruct (endsWith n ".scale") eqn:E; [|easy].
    assert (H : endsWith ".quaternion" ".scale" = true)
      by (apply (endsWith_both n); [exact E | exact Hq | cbn; lia]).
    discriminate H.
Qed.

(** ** The loop of [retargetAnimation] as a filter followed by a map *)

Lemma retarget_loop (l acc : list KeyframeTrack) :
  fold_left retarget_track l acc = (acc ++ map renamed (List.filter retained l))%list.
Proof.
  revert acc. induction l as [|t l IH]; intros acc; cbn [fold_left List.filter map].
  - now rewrite app_nil_r.
  - rewrite IH. unfold retarget_track, retained at 2.
    destruct (skipped (track_name t)); cbn [negb map]; [easy|].
    now rewrite <- app_assoc.
Qed.

Lemma retarget_tracks (clip : AnimationClip) :
  clip_tracks (retargetAnimation clip)
  = map renamed (List.filter retained (clip_tracks clip)).
Proof. unfold retargetAnimation. cbn [clip_tracks]. now rewrite retarget_loop. Qed.

Lemma filter_map_names (f : string -> bool) (l : list KeyframeTrack) :
  List.filter f (map track_name l)
  = map track_name (List.filter (fun t => f (track_name t)) l).
Proof.
  induction l as [|t l IH]; [easy|]. cbn [map List.filter].
  destruct (f (track_name t)); cbn [map]; now rewrite IH.
Qed.

Lemma three_property_filter (clip : AnimationClip) :
  three_property_clip clip ->
  List.filter retained (clip_tracks clip)
  = List.filter (fun t => is_rotation (track_name t)) (clip_tracks clip).
Proof.
  unfold three_property_clip. induction 1 as [|t l Ht _ IH]; [easy|].
  cbn [List.filter]. rewrite IH. unfold retained at 1.
  destruct (is_rotation (track_name t)) eqn:Er.
  - now rewrite (rotation_not_skipped _ Er).
  - destruct Ht as [Hp|[Hr|Hs]]; [|congruence|]; unfold skipped;
      unfold is_position in Hp || unfold is_scale in Hs.
    + now rewrite Hp.
    + rewrite Hs, orb_true_r. reflexivity.
Qed.

Example retarget_spec_example :
  map track_name
      (clip_tracks
         (retargetAnimation
            (mkClip "walking" (1 # 1)
               [ mkTrack QuaternionKeyframeTrack "mixamorigHips.quaternion" [0%Q] [0%Q; 0%Q; 0%Q; 1%Q];
                 mkTrack VectorKeyframeTrack "mixamorigHips.position" [0%Q] [0%Q; 0%Q; 0%Q];
                 mkTrack QuaternionKeyframeTrack "mixamorigSpine.quaternion" [0%Q] [0%Q; 0%Q; 0%Q; 1%Q] ])))
  = ["Hips.quaternion"; "Spine.quaternion"].
Proof. reflexivity. Qed.

(** ** Properties of [retargetAnimation] *)

(** C2. For every source clip, the retargeted clip holds no position track
    and no scale track, whatever the mix of properties in the source; for
    a source clip of the data model (position, rotation and scale tracks
    only) every track of the result is a rotation track. *)
Theorem retarget_only_rotation (clip : AnimationClip) :
  Forall (fun t => is_position (track_name t) = false
                   /\ is_scale (track_name t) = false)
         (clip_tracks (retargetAnimation clip))
  /\ (three_property_clip clip ->
      Forall (fun t => is_rotation (track_name t) = true)
             (clip_tracks (retargetAnimation clip))).
Proof.
  rewrite retarget_tracks. split.
  - apply List.Forall_forall. intros t Ht.
    apply in_map_iff in Ht as (t0 & <- & Ht0).
    apply filter_In in Ht0 as [_ Hkeep].
    unfold retained in Hkeep. apply negb_true_iff in Hkeep.
    apply skipped_replace_prefix in Hkeep. unfold skipped in Hkeep.
    now apply orb_false_iff in Hkeep.
  - intros Hmodel. rewrite (three_property_filter _ Hmodel).
    apply List.Forall_forall. intros t Ht.
    apply in_map_iff in Ht as (t0 & <- & Ht0).
    apply filter_In in Ht0 as [_ Hrot].
    now apply is_rotation_replace_prefix.
Qed.

Lemma retarget_only_rotation_witness :
  three_property_clip (mixamo_clip "walking")
  /\ Forall (fun t => is_rotation (track_name t) = true)
            (clip_tracks (retargetAnimation (mixamo_clip "walking"))).
Proof.
  assert (H : three_property_clip (mixamo_clip "walking")).
  { unfold three_property_clip, mixamo_clip. cbn [clip_tracks].
    repeat (constructor; [vm_compute; auto|]). constructor. }
  split; [exact H|].
  exact (proj2 (retarget_only_rotation (mixamo_clip "walking")) H).
Defined.

(** C3. The track names of the retargeted clip are, in order, the names
    of the source tracks that are neither position nor scale tracks (the
    rotation tracks of a data-model clip), each with the source namespace
    removed when the name starts with it and unchanged otherwise; the
    property suffix of every name is left as it was. *)
Theorem retarget_names (clip : AnimationClip) :
  let names := map track_name (clip_tracks clip) in
  let strip := replace_prefix mixamorig in
  map track_name (clip_tracks (retargetAnimation clip))
  = map strip (List.filter (fun n => negb (skipped n)) names)
  /\ (three_property_clip clip ->
      map track_name (clip_tracks (retargetAnimation clip))
      = map strip (List.filter is_rotation names))
  /\ (forall n, (~ starts_with mixamorig n /\ strip n = n)
                \/ n = mixamorig ++ strip n)
  /\ (forall n, property_of (strip n) = property_of n).
Proof.
  cbv zeta. rewrite retarget_tracks. repeat split.
  - rewrite filter_map_names, !map_map. reflexivity.
  - intros Hmodel. rewrite (three_property_filter _ Hmodel).
    rewrite filter_map_names, !map_map. reflexivity.
  - intros n. apply replace_prefix_cases.
  - intros n. apply property_of_replace_prefix.
Qed.

Lemma retarget_names_witness :
  three_property_clip (mixamo_clip "walking")
  /\ map track_name (clip_tracks (retargetAnimation (mixamo_clip "walking")))
     = ["Hips.quaternion"; "Spine.quaternion"].
Proof.
  assert (H : three_property_clip (mixamo_clip "walking")).
  { unfold three_property_clip, mixamo_clip. cbn [clip_tracks].
    repeat (constructor; [vm_compute; auto|]). constructor. }
  split; [exact H|].
  rewrite (proj1 (proj2 (retarget_names (mixamo_clip "walking"))) H).
  reflexivity.
Defined.

(** C4. The retargeted clip has the name and the duration of the source,
    and its tracks are the retained source tracks one for one: same
    runtime class, same time samples, same value samples. *)
Theorem retarget_preserves (clip : AnimationClip) :
  clip_name (retargetAnimation clip) = clip_name clip
  /\ clip_duration (retargetAnimation clip) = clip_duration clip
  /\ Forall2 (fun new old =>
                track_constructor new = track_constructor old
                /\ track_times new = track_times old
                /\ track_values new = track_values old)
             (clip_tracks (retargetAnimation clip))
             (List.filter retained (clip_tracks clip)).
Proof.
  split; [reflexivity|]. split; [reflexivity|].
  rewrite retarget_tracks.
  induction (List.filter retained (clip_tracks clip)) as [|t l IH];
    cbn [map]; constructor; auto.
Qed.

(** C5. On a clip none of whose track names starts with the source
    namespace, retargeting a second time changes nothing: the tracks of
    [retarget (retarget c)] are those of [retarget c], names, times and
    values alike. *)
Theorem retarget_idempotent (clip : AnimationClip) :
  prefix_free clip ->
  clip_tracks (retargetAnimation (retargetAnimation clip))
  = clip_tracks (retargetAnimation clip).
Proof.
  intros Hfree. rewrite !retarget_tracks.
  assert (Hkeep : forall l : list KeyframeTrack,
             Forall (fun t => ~ starts_with mixamorig (track_name t)) l ->
             map renamed (List.filter retained l) = List.filter retained l).
  { induction 1 as [|t l Ht _ IH]; [reflexivity|].
    cbn [List.filter]. destruct (retained t); cbn [map]; rewrite IH.
    - f_equal. unfold renamed. rewrite (replace_prefix_absent _ _ Ht). now destruct t.
    - reflexivity. }
  rewrite (Hkeep _ Hfree).
  assert (Hidem : forall l : list KeyframeTrack,
             List.filter retained (List.filter retained l) = List.filter retained l).
  { induction l as [|t l IH]; [reflexivity|]. cbn [List.filter].
    destruct (retained t) eqn:E; cbn [List.filter]; rewrite ?E, IH; reflexivity. }
  rewrite Hidem. now apply Hkeep.
Qed.

Lemma retarget_idempotent_witness :
  prefix_free avatar_clip
  /\ clip_tracks (retargetAnimation (retargetAnimation avatar_clip))
     = clip_tracks (retargetAnimation avatar_clip).
Proof.
  assert (H : prefix_free avatar_clip).
  { unfold prefix_free, avatar_clip. cbn [clip_tracks].
    repeat (constructor; [intros [rest E]; discriminate E|]). constructor. }
  split; [exact H|]. exact (retarget_idempotent avatar_clip H).
Defined.

(** Without that premise a second pass may strip again: the pattern is
    anchored but a name may carry the namespace twice. *)
Example retarget_twice_strips_twice :
  let c := mkClip "c" 1%Q
             [mkTrack QuaternionKeyframeTrack "mixamorigmixamorigHips.quaternion" [0%Q] [0%Q]] in
  map track_name (clip_tracks (retargetAnimation c)) = ["mixamorigHips.quaternion"]
  /\ map track_name (clip_tracks (retargetAnimation (retargetAnimation c)))
     = ["Hips.quaternion"].
Proof. split; reflexivity. Qed.

(** A track that is neither position, scale nor rotation passes through
    renamed, like a rotation track. *)
Example retarget_keeps_other_properties :
  map track_name
    (clip_tracks (retargetAnimation
       (mkClip "c" 1%Q
          [mkTrack NumberKeyframeTrack "mixamorigHead.morphTargetInfluences" [0%Q] [0%Q]])))
  = ["Head.morphTargetInfluences"].
Proof. reflexivity. Qed.

(** ** More on [retargetAnimation] *)

(** X1. Retargeting works track by track: the result for a track list
    that is a concatenation is the concatenation of the results. *)
Theorem retarget_concat (n : string) (d : Q) (a b : list KeyframeTrack) :
  clip_tracks (retargetAnimation (mkClip n d (a ++ b)%list))
  = (clip_tracks (retargetAnimation (mkClip n d a))
     ++ clip_tracks (retargetAnimation (mkClip n d b)))%list.
Proof.
  rewrite !retarget_tracks. cbn [clip_tracks].
  now rewrite List.filter_app, map_app.
Qed.

(** X2. The retargeted clip has no track at all exactly when every source
    track is a position or a scale track; an empty source clip is the
    limit case.  Nothing is raised for it. *)
Theorem retarget_empty_iff (clip : AnimationClip) :
  clip_tracks (retargetAnimation clip) = []
  <-> Forall (fun t => is_position (track_name t) = true
                       \/ is_scale (track_name t) = true)
             (clip_tracks clip).
Proof.
  rewrite retarget_tracks. induction (clip_tracks clip) as [|t l IH].
  - split; [constructor|reflexivity].
  - cbn [List.filter]. unfold retained at 1. unfold skipped, is_position, is_scale in *.
    destruct (endsWith (track_name t) ".position") eqn:Ep;
      [|destruct (endsWith (track_name t) ".scale") eqn:Es]; cbn [orb negb map].
    + rewrite IH. split; [constructor; auto|]. intros H. now apply Forall_cons in H.
    + rewrite IH. split; [constructor; auto|]. intros H. now apply Forall_cons in H.
    + split; [discriminate|]. intros H. apply Forall_cons in H as [[H|H] _]; congruence.
Qed.

(** X3. A second pass over a retargeted clip drops no track, whatever the
    clip: each track of the second result is the track of the first at
    the same place, with its class, times and values, its name stripped
    once more. *)
Theorem retarget_second_pass (clip : AnimationClip) :
  Forall2 (fun second first =>
             track_constructor second = track_constructor first
             /\ track_times second = track_times first
             /\ track_values second = track_values first
             /\ track_name second = replace_prefix mixamorig (track_name first))
          (clip_tracks (retargetAnimation (retargetAnimation clip)))
          (clip_tracks (retargetAnimation clip)).
Proof.
  rewrite (retarget_tracks (retargetAnimation clip)).
  assert (Hall : Forall (fun t => retained t = true)
                        (clip_tracks (retargetAnimation clip))).
  { rewrite retarget_tracks. apply List.Forall_forall. intros t Ht.
    apply in_map_iff in Ht as (t0 & <- & Ht0). apply filter_In in Ht0 as [_ Hk].
    unfold retained in *. apply negb_true_iff in Hk. apply negb_true_iff.
    now apply skipped_replace_prefix. }
  induction Hall as [|t l Ht _ IH]; cbn [List.filter map]; [constructor|].
  rewrite Ht. cbn [map]. constructor; [|exact IH]. now repeat split.
Qed.

(** X4. Putting bone names under the source namespace and retargeting
    gives back the tracks that are neither position nor scale tracks,
    names included: stripping undoes prefixing. *)
Theorem retarget_prefixed (n : string) (d : Q) (l : list KeyframeTrack) :
  clip_tracks (retargetAnimation (mkClip n d (map prefixed l)))
  = List.filter (fun t => negb (is_position (track_name t)
                                || is_scale (track_name t))) l.
Proof.
  rewrite retarget_tracks. cbn [clip_tracks].
  induction l as [|t l IH]; [reflexivity|]. cbn [map List.filter].
  assert (Hs : retained (prefixed t)
               = negb (is_position (track_name t) || is_scale (track_name t)))
    by reflexivity.
  rewrite Hs. destruct (negb _); [|exact IH]. cbn [map]. rewrite IH. f_equal.
  unfold renamed, prefixed. cbn [track_name track_constructor track_times track_values].
  assert (Hn : replace_prefix mixamorig (mixamorig ++ track_name t) = track_name t).
  { unfold replace_prefix.
    now rewrite (proj2 (match_prefix_Some mixamorig _ (track_name t)) eq_refl). }
  rewrite Hn. now destruct t.
Qed.

(** ** Proof steps that recur *)

(** The three outcomes of a delivering load: the third one with walking
    registered, the third one without, any other. *)
Ltac load_outcomes :=
  destruct (Nat.eqb _ _); [destruct (_ !! "walking")|].

(** The cases of a membership in an explicit list. *)
Ltac list_cases H :=
  repeat (apply elem_of_cons in H as [->|H]); try (now apply elem_of_nil in H).

(** ** Runs *)

Lemma run_app (v : Viewer) (es1 es2 : list Event) :
  run v (es1 ++ es2)%list = run (run v es1) es2.
Proof. apply fold_left_app. Qed.

Lemma run_snoc (v : Viewer) (es : list Event) (e : Event) :
  run v (es ++ [e])%list = handle (run v es) e.
Proof. now rewrite run_app. Qed.

Lemma handle_mixer (v : Viewer) (e : Event) :
  is_Some (mixerRef v) -> is_Some (mixerRef (handle v e)).
Proof.
  intros [mixer Hm]. destruct e as [name animations|name|delta]; cbn [handle].
  - unfold onAnimationLoaded. rewrite Hm.
    destruct (head animations); [|now rewrite Hm].
    cbv zeta. unfold clipAction.
    load_outcomes; cbn [mixerRef]; eauto.
  - unfold playAnimation. rewrite Hm.
    destruct (actionsRef v !! name); cbn [mixerRef]; eauto.
  - unfold animate. cbn [mixerRef]. rewrite Hm. cbn. eauto.
Qed.

Lemma run_mixer (v : Viewer) (es : list Event) :
  is_Some (mixerRef v) -> is_Some (mixerRef (run v es)).
Proof.
  revert v. induction es as [|e es IH]; intros v Hv; [exact Hv|].
  cbn [run fold_left]. apply IH, handle_mixer, Hv.
Qed.

(** ** The counter and the loading flag *)

Lemma handle_counting (v : Viewer) (e : Event) :
  counting v ->
  counting (handle v e)
  /\ loadedAnimations (handle v e)
     = loadedAnimations v + (if delivers e then 1 else 0).
Proof.
  intros [Hm Hl]. split; [split; [now apply handle_mixer|]|].
  - destruct Hm as [mixer Hm].
    destruct e as [name animations|name|delta]; cbn [handle].
    + unfold onAnimationLoaded. rewrite Hm.
      destruct (head animations); [|exact Hl]. cbv zeta. unfold clipAction.
      destruct (Nat.eqb_spec (S (loadedAnimations v)) totalAnimations) as [E|E].
      * destruct (_ !! "walking"); cbn [isLoading loadedAnimations];
          rewrite E; reflexivity.
      * cbn [isLoading loadedAnimations]. rewrite Hl.
        unfold totalAnimations in *.
        destruct (Nat.ltb_spec (loadedAnimations v) 3),
                 (Nat.ltb_spec (S (loadedAnimations v)) 3); (reflexivity || lia).
    + unfold playAnimation. rewrite Hm.
      destruct (actionsRef v !! name); exact Hl.
    + exact Hl.
  - destruct Hm as [mixer Hm].
    destruct e as [name animations|name|delta]; cbn [handle delivers].
    + unfold onAnimationLoaded. rewrite Hm.
      destruct animations as [|animation rest]; cbn [head]; [lia|].
      cbv zeta. unfold clipAction.
      load_outcomes;
        cbn [loadedAnimations]; lia.
    + unfold playAnimation. rewrite Hm.
      destruct (actionsRef v !! name); cbn [loadedAnimations]; lia.
    + cbn [animate loadedAnimations]. lia.
Qed.

Lemma run_counting (v : Viewer) (es : list Event) :
  counting v ->
  counting (run v es)
  /\ loadedAnimations (run v es)
     = loadedAnimations v + length (List.filter delivers es).
Proof.
  revert v. induction es as [|e es IH]; intros v Hv.
  - cbn. split; [exact Hv|lia].
  - cbn [run fold_left List.filter].
    destruct (handle_counting v e Hv) as [Hc Hn].
    destruct (IH _ Hc) as [Hc' Hn']. split; [exact Hc'|].
    fold (run (handle v e) es). rewrite Hn', Hn.
    destruct (delivers e); cbn [length]; lia.
Qed.

Lemma avatar_loaded_counting : counting avatar_loaded.
Proof. split; [cbn; eauto|reflexivity]. Qed.

(** From the state in which the loads are issued, the flag is up exactly
    while fewer than three loads have delivered a clip. *)
Lemma loading_while_below_three (es : list Event) :
  isLoading (run avatar_loaded es)
  = Nat.ltb (length (List.filter delivers es)) totalAnimations.
Proof.
  destruct (run_counting avatar_loaded es avatar_loaded_counting) as [[_ Hl] Hn].
  rewrite Hl, Hn. reflexivity.
Qed.

(** Once down, the flag stays down: the transition happens at most once. *)
Lemma loading_never_returns (v : Viewer) (es : list Event) :
  isLoading v = false -> isLoading (run v es) = false.
Proof.
  revert v. induction es as [|e es IH]; intros v Hv; [exact Hv|].
  cbn [run fold_left]. apply IH.
  destruct e as [name animations|name|delta]; cbn [handle].
  - unfold onAnimationLoaded. destruct (mixerRef v); [|exact Hv].
    destruct (head animations); [|exact Hv]. cbv zeta. unfold clipAction.
    load_outcomes; cbn [isLoading]; auto.
  - unfold playAnimation. destruct (mixerRef v); [|exact Hv].
    destruct (actionsRef v !! name); exact Hv.
  - exact Hv.
Qed.

Lemma delivered_names_length (es : list Event) :
  length (delivered_names es) = length (List.filter delivers es).
Proof.
  induction es as [|e es IH]; [reflexivity|].
  unfold delivered_names in *. cbn [omap list_omap List.filter].
  destruct e as [name [|a l]|name|delta]; cbn; auto.
Qed.

(** ** The registry *)

Lemma handle_registry_mono (v : Viewer) (e : Event) (n : string) :
  is_Some (actionsRef v !! n) -> is_Some (actionsRef (handle v e) !! n).
Proof.
  intros Hn. destruct e as [name animations|name|delta]; cbn [handle].
  - unfold onAnimationLoaded. destruct (mixerRef v); [|exact Hn].
    destruct (head animations); [|exact Hn]. cbv zeta. unfold clipAction.
    assert (H : is_Some (<[name:=length l]> (actionsRef v) !! n)).
    { destruct (decide (name = n)) as [->|Hne].
      - rewrite lookup_insert_eq. eauto.
      - now rewrite lookup_insert_ne. }
    load_outcomes; exact H.
  - unfold playAnimation. destruct (mixerRef v); [|exact Hn].
    destruct (actionsRef v !! name); exact Hn.
  - exact Hn.
Qed.

Lemma run_registry_mono (v : Viewer) (es : list Event) (n : string) :
  is_Some (actionsRef v !! n) -> is_Some (actionsRef (run v es) !! n).
Proof.
  revert v. induction es as [|e es IH]; intros v Hv; [exact Hv|].
  cbn [run fold_left]. apply IH, handle_registry_mono, Hv.
Qed.

Lemma run_registers (v : Viewer) (es : list Event) (n : string) :
  is_Some (mixerRef v) -> n ∈ delivered_names es ->
  is_Some (actionsRef (run v es) !! n).
Proof.
  revert v. induction es as [|e es IH]; intros v Hm Hin;
    [now apply elem_of_nil in Hin|].
  cbn [run fold_left]. fold (run (handle v e) es).
  unfold delivered_names in Hin. cbn [omap list_omap] in Hin.
  fold (delivered_names es) in Hin.
  destruct e as [name [|a rest]|name|delta]; cbn [delivers load_name] in Hin;
    try (apply IH; [now apply handle_mixer|exact Hin]).
  apply elem_of_cons in Hin as [->|Hin];
    [|apply IH; [now apply handle_mixer|exact Hin]].
  apply run_registry_mono. destruct Hm as [mixer Hm].
  cbn [handle]. unfold onAnimationLoaded. rewrite Hm. cbn [head]. cbv zeta.
  unfold clipAction.
  assert (H : is_Some (<[name:=length mixer]> (actionsRef v) !! name))
    by (rewrite lookup_insert_eq; eauto).
  load_outcomes; exact H.
Qed.

Lemma delivered_completed (es : list Event) (n : string) :
  n ∈ delivered_names es -> n ∈ completed_names es.
Proof.
  unfold delivered_names, completed_names.
  induction es as [|e es IH]; [easy|]. cbn [omap list_omap].
  destruct e as [name [|a rest]|name|delta]; cbn [delivers load_name];
    rewrite ?elem_of_cons; tauto.
Qed.

Lemma delivered_NoDup (es : list Event) :
  NoDup (completed_names es) -> NoDup (delivered_names es).
Proof.
  induction es as [|e es IH]; [easy|].
  pose proof (delivered_completed es) as Hsub.
  unfold delivered_names, completed_names in *. cbn [omap list_omap].
  destruct e as [name [|a rest]|name|delta]; cbn [delivers load_name]; auto.
  - intros H. apply NoDup_cons in H as [_ H]. auto.
  - intros H. apply NoDup_cons in H as [Hn H]. apply NoDup_cons.
    split; [|auto]. intros Hin. apply Hn. now apply Hsub.
Qed.

(** With one load per name, a missing name means fewer than three
    deliveries. *)
Lemma missing_name_below_three (es : list Event) (n : string) :
  one_load_per_name es -> n ∈ expected -> n ∉ delivered_names es ->
  length (List.filter delivers es) < totalAnimations.
Proof.
  intros [Hnd Hexp] Hn Hmiss. rewrite <- delivered_names_length.
  pose proof (delivered_NoDup es Hnd) as Hnd'.
  assert (Hin : forall x, x ∈ delivered_names es -> x ∈ expected /\ x <> n).
  { intros x Hx. split; [apply Hexp, delivered_completed, Hx|]. now intros ->. }
  unfold totalAnimations.
  assert (Hle : exists others : list string,
             length others = 2 /\ forall x, x ∈ delivered_names es -> x ∈ others).
  { unfold expected in *.
    list_cases Hn;
      [exists ["sitting"; "standing_up"]
      |exists ["walking"; "standing_up"]
      |exists ["walking"; "sitting"]];
      (split; [reflexivity|]); intros x Hx; destruct (Hin x Hx) as [Hx' Hne];
      rewrite !elem_of_cons, elem_of_nil in Hx'; rewrite !elem_of_cons;
      intuition congruence. }
  destruct Hle as (others & Hlen & Hincl).
  pose proof (submseteq_length _ _ (NoDup_submseteq _ _ Hnd' Hincl)). lia.
Qed.

(** ** Loads alone select nothing before the third delivery *)

Lemma load_nothing_selected (v : Viewer) (name : string) (animations : list AnimationClip) :
  nothing_selected v ->
  S (loadedAnimations v) <> totalAnimations \/ animations = [] ->
  nothing_selected (onAnimationLoaded name animations v).
Proof.
  intros [Hcur Hidle] Hbelow. unfold onAnimationLoaded.
  destruct (mixerRef v) as [mixer|] eqn:Hm; [|now split].
  destruct animations as [|animation rest]; cbn [head]; [now split|].
  destruct Hbelow as [Hbelow|]; [|discriminate]. cbv zeta. unfold clipAction.
  destruct (Nat.eqb_spec (S (loadedAnimations v)) totalAnimations); [easy|].
  split; [exact Hcur|]. intros action a. unfold action_at. cbn [mixerRef].
  intros Ha. apply lookup_snoc_Some in Ha as [[_ Ha]|[_ <-]]; [|now split].
  apply (Hidle action). unfold action_at. now rewrite Hm.
Qed.

Lemma loads_nothing_selected (es : list Event) :
  Forall (fun e => is_load e = true) es ->
  length (List.filter delivers es) < totalAnimations ->
  nothing_selected (run avatar_loaded es).
Proof.
  induction es as [|e es IH] using rev_ind; intros Hloads Hbelow.
  - split; [reflexivity|]. intros action a. unfold action_at. cbn.
    now rewrite lookup_nil.
  - apply Forall_app in Hloads as [Hloads He].
    apply Forall_cons in He as [He _].
    rewrite List.filter_app, length_app in Hbelow.
    rewrite run_snoc. destruct e as [name animations| |]; try discriminate.
    cbn [handle]. apply load_nothing_selected; [apply IH; [exact Hloads|lia]|].
    destruct (run_counting avatar_loaded es avatar_loaded_counting) as [_ Hn].
    rewrite Hn. destruct animations; [now right|left].
    cbn [List.filter delivers length] in Hbelow. cbn [loadedAnimations avatar_loaded onModelLoaded]. lia.
Qed.

Lemma nothing_selected_running (v : Viewer) :
  nothing_selected v -> running v = [].
Proof.
  intros [_ Hidle]. unfold running.
  destruct (mixerRef v) as [mixer|] eqn:Hm; [|reflexivity].
  assert (H : forall l : list nat,
             List.filter (fun i => match mixer !! i with
                                   | Some a => action_running a
                                   | None => false
                                   end) l = []).
  { induction l as [|i l IH]; [reflexivity|]. cbn [List.filter].
    destruct (mixer !! i) as [a|] eqn:Ha; [|exact IH].
    destruct (Hidle i a) as [-> _]; [unfold action_at; now rewrite Hm|exact IH]. }
  apply H.
Qed.

Lemma empty_load_not_counted (es : list Event) (name : string) :
  AnimationLoaded name [] ∈ es ->
  length (List.filter delivers es) < length (completed_names es).
Proof.
  assert (Hle : forall l, length (List.filter delivers l) <= length (completed_names l)).
  { induction l as [|e l IH]; [reflexivity|]. unfold completed_names in *.
    cbn [List.filter omap list_omap].
    destruct e as [n [|a rest]|n|delta]; cbn [delivers load_name length]; lia. }
  induction es as [|e es IH]; intros Hin; [now apply elem_of_nil in Hin|].
  apply elem_of_cons in Hin as [<-|Hin].
  - specialize (Hle es). unfold completed_names in *. cbn. lia.
  - specialize (IH Hin). unfold completed_names in *.
    cbn [List.filter omap list_omap].
    destruct e as [n [|a rest]|n|delta]; cbn [delivers load_name length]; lia.
Qed.

(** Settles [no_press_while_loading] for an explicit list of events [E]
    names the equation between the list and its split at a press. *)
Ltac split_at_press E pre :=
  repeat (destruct pre as [|? pre];
          [first [discriminate E | vm_compute; reflexivity]
          |injection E as <- E]);
  destruct pre; discriminate E.

(** ** Actions under [play], [reset] and [stop] *)

Lemma stop_lookup (action i : nat) (mixer : AnimationMixer) :
  stop action mixer !! i
  = if decide (action = i)
    then (fun a => mkAction (action_clip a) 0%Q false) <$> mixer !! i
    else mixer !! i.
Proof.
  unfold stop, reset. case_decide as E.
  - subst i. rewrite !list_lookup_alter_eq. now destruct (mixer !! action).
  - now rewrite !list_lookup_alter_ne.
Qed.

Lemma reset_lookup (action i : nat) (mixer : AnimationMixer) :
  reset action mixer !! i
  = if decide (action = i)
    then (fun a => mkAction (action_clip a) 0%Q (action_running a)) <$> mixer !! i
    else mixer !! i.
Proof.
  unfold reset. case_decide as E.
  - subst i. now rewrite list_lookup_alter_eq.
  - now rewrite list_lookup_alter_ne.
Qed.

Lemma play_lookup (action i : nat) (mixer : AnimationMixer) :
  play action mixer !! i
  = if decide (action = i)
    then (fun a => mkAction (action_clip a) (action_time a) true) <$> mixer !! i
    else mixer !! i.
Proof.
  unfold play. case_decide as E.
  - subst i. now rewrite list_lookup_alter_eq.
  - now rewrite list_lookup_alter_ne.
Qed.

Lemma stop_absent (action : nat) (mixer : AnimationMixer) :
  mixer !! action = None -> stop action mixer = mixer.
Proof.
  intros H. apply list_eq. intros i. rewrite stop_lookup.
  case_decide; [subst; now rewrite H|reflexivity].
Qed.

(** A button pressed for a registered name: the action pointed to is
    stopped, the target is rewound and started and becomes the current
    one; if only the current action was running, the target is the only
    one running afterwards. *)
Lemma playAnimation_registered
  (v : Viewer) (name : string) (action : nat) (mixer : AnimationMixer) :
  mixerRef v = Some mixer -> actionsRef v !! name = Some action ->
  let v' := playAnimation name v in
  currentActionRef v' = Some action
  /\ (forall a, action_at v action = Some a ->
        action_at v' action = Some (mkAction (action_clip a) 0%Q true))
  /\ (forall old a, currentActionRef v = Some old -> old <> action ->
        action_at v old = Some a ->
        action_at v' old = Some (mkAction (action_clip a) 0%Q false))
  /\ (forall i, i <> action -> currentActionRef v <> Some i ->
        action_at v' i = action_at v i)
  /\ (only_current_runs v ->
      forall i a, action_at v' i = Some a -> action_running a = true -> i = action).
Proof.
  intros Hm Hreg. cbv zeta. unfold playAnimation. rewrite Hm, Hreg.
  unfold action_at, only_current_runs. cbn [currentActionRef mixerRef]. rewrite Hm.
  split; [reflexivity|]. repeat split.
  - intros a Ha. rewrite play_lookup. rewrite decide_True by reflexivity.
    rewrite reset_lookup. rewrite decide_True by reflexivity.
    destruct (currentActionRef v) as [old|]; [|now rewrite Ha].
    rewrite stop_lookup. destruct (decide (old = action)); now rewrite Ha.
  - intros old a -> Hne Ha.
    rewrite play_lookup. rewrite decide_False by congruence.
    rewrite reset_lookup. rewrite decide_False by congruence.
    rewrite stop_lookup. rewrite decide_True by reflexivity. now rewrite Ha.
  - intros i Hne Hcur. rewrite play_lookup. rewrite decide_False by congruence.
    rewrite reset_lookup. rewrite decide_False by congruence.
    destruct (currentActionRef v) as [old|]; [|reflexivity].
    rewrite stop_lookup. rewrite decide_False; [reflexivity|congruence].
  - intros Honly i a Ha Hrun. destruct (decide (action = i)) as [->|Hne]; [reflexivity|].
    exfalso. rewrite play_lookup in Ha. rewrite decide_False in Ha by congruence.
    rewrite reset_lookup in Ha. rewrite decide_False in Ha by congruence.
    destruct (currentActionRef v) as [old|] eqn:Hcur.
    + rewrite stop_lookup in Ha. case_decide as E.
      * subst i. destruct (mixer !! old); [|discriminate].
        injection Ha as <-. discriminate Hrun.
      * assert (Ha' : action_at v i = Some a) by (unfold action_at; now rewrite Hm).
        specialize (Honly i a Ha' Hrun). congruence.
    + assert (Ha' : action_at v i = Some a) by (unfold action_at; now rewrite Hm).
      specialize (Honly i a Ha' Hrun). discriminate.
Qed.

(** The third delivery: the flag goes down; the walking action, when
    registered, becomes the current one and runs; otherwise the
    current-action ref and the older actions are left as they were. *)
Lemma third_delivery
  (v : Viewer) (name : string) (animation : AnimationClip)
  (rest : list AnimationClip) (mixer : AnimationMixer) :
  mixerRef v = Some mixer -> loadedAnimations v = 2 ->
  let v' := onAnimationLoaded name (animation :: rest) v in
  isLoading v' = false
  /\ (forall walking, actionsRef v' !! "walking" = Some walking ->
        currentActionRef v' = Some walking
        /\ (forall a, action_at v' walking = Some a -> action_running a = true))
  /\ (actionsRef v' !! "walking" = None ->
        currentActionRef v' = currentActionRef v
        /\ (forall i a, action_at v i = Some a -> action_at v' i = Some a)
        /\ action_at v' (length mixer)
           = Some (mkAction (retargetAnimation animation) 0%Q false)).
Proof.
  intros Hm Hn. cbv zeta. unfold onAnimationLoaded.
  rewrite Hm, Hn. cbn [head]. cbv zeta. unfold clipAction. cbn [Nat.eqb totalAnimations].
  destruct (<[name:=length mixer]> (actionsRef v) !! "walking") as [walking|] eqn:Hw;
    cbn [isLoading actionsRef currentActionRef]; (split; [reflexivity|]); split.
  - intros w Hw'. rewrite Hw in Hw'. injection Hw' as <-. split; [reflexivity|].
    intros a. unfold action_at. cbn [mixerRef]. rewrite play_lookup, decide_True by reflexivity.
    destruct (_ !! walking); [|discriminate]. now intros [= <-].
  - intros Hw'. rewrite Hw in Hw'. discriminate.
  - intros w Hw'. rewrite Hw in Hw'. discriminate.
  - intros _. split; [reflexivity|]. unfold action_at. cbn [mixerRef]. rewrite Hm. split.
    + intros i a Ha. rewrite lookup_app_l; [exact Ha|]. now apply lookup_lt_Some in Ha.
    + now rewrite list_lookup_middle.
Qed.

(** A button pressed for a name that is not registered touches no action
    but the current one. *)
Lemma playAnimation_unregistered_others (v : Viewer) (name : string) :
  actionsRef v !! name = None ->
  currentActionRef (playAnimation name v) = currentActionRef v
  /\ (forall action, currentActionRef v <> Some action ->
        action_at (playAnimation name v) action = action_at v action).
Proof.
  intros H. unfold playAnimation, action_at.
  destruct (mixerRef v) as [mixer|] eqn:Hm; [|now rewrite Hm].
  rewrite H. cbn [mixerRef currentActionRef]. split; [reflexivity|].
  intros action Hne. destruct (currentActionRef v) as [old|]; [|reflexivity].
  rewrite stop_lookup. rewrite decide_False; [reflexivity|congruence].
Qed.

(** The button handler keeps at most the current action running. *)
Lemma playAnimation_keeps_single (v : Viewer) (name : string) :
  only_current_runs v -> only_current_runs (playAnimation name v).
Proof.
  intros Honly. destruct (mixerRef v) as [mixer|] eqn:Hm.
  - destruct (actionsRef v !! name) as [action|] eqn:Hreg.
    + destruct (playAnimation_registered v name action mixer Hm Hreg)
        as (Hcur & _ & _ & _ & Hsingle).
      intros i a Ha Hrun. cbv zeta in Hcur. rewrite Hcur. f_equal. symmetry.
      exact (Hsingle Honly i a Ha Hrun).
    + destruct (playAnimation_unregistered_others v name Hreg) as (Hcur & Hother).
      intros i a Ha Hrun. rewrite Hcur.
      destruct (decide (currentActionRef v = Some i)) as [E|E]; [exact E|].
      rewrite (Hother i E) in Ha. exact (Honly i a Ha Hrun).
  - unfold playAnimation. now rewrite Hm.
Qed.

(** The registry holds nothing but what the loads delivered. *)
Lemma handle_registered_inv (v : Viewer) (e : Event) (n : string) :
  is_Some (actionsRef (handle v e) !! n) ->
  is_Some (actionsRef v !! n) \/ (delivers e = true /\ load_name e = Some n).
Proof.
  destruct e as [name animations|name|delta]; cbn [handle].
  - unfold onAnimationLoaded. destruct (mixerRef v); [|now left].
    destruct animations as [|animation rest]; cbn [head]; [now left|].
    cbv zeta. unfold clipAction. intros H.
    assert (H' : is_Some (<[name:=length l]> (actionsRef v) !! n))
      by (load_outcomes; exact H).
    destruct (decide (name = n)) as [->|Hne]; [now right|].
    rewrite lookup_insert_ne in H' by exact Hne. now left.
  - unfold playAnimation. destruct (mixerRef v); [|now left].
    destruct (actionsRef v !! name); now left.
  - now left.
Qed.

Lemma run_registered_inv (es : list Event) (n : string) :
  is_Some (actionsRef (run avatar_loaded es) !! n) -> n ∈ delivered_names es.
Proof.
  induction es as [|e es IH] using rev_ind.
  - cbn. rewrite lookup_empty. now intros [? ?].
  - rewrite run_snoc. intros H. unfold delivered_names. rewrite omap_app.
    apply elem_of_app. apply handle_registered_inv in H as [H|[Hd Hn]].
    + left. now apply IH.
    + right. cbn [omap list_omap]. rewrite Hd, Hn. apply elem_of_cons. now left.
Qed.

(** With one load per name, the flag is down exactly when the registry
    holds the three expected names. *)
Lemma ready_iff_complete (events : list Event) :
  one_load_per_name events ->
  isLoading (run avatar_loaded events) = false
  <-> (forall name, name ∈ expected ->
         is_Some (actionsRef (run avatar_loaded events) !! name)).
Proof.
  intros Hone. split.
  - intros Hready name Hexp.
    destruct (actionsRef (run avatar_loaded events) !! name) eqn:Hreg; [eauto|].
    exfalso. rewrite loading_while_below_three in Hready.
    apply Nat.ltb_ge in Hready.
    assert (Hmiss : name ∉ delivered_names events).
    { intros Hin. apply (run_registers avatar_loaded) in Hin; [|cbn; eauto].
      rewrite Hreg in Hin. now destruct Hin. }
    pose proof (missing_name_below_three events name Hone Hexp Hmiss). lia.
  - intros Hall. rewrite loading_while_below_three. apply Nat.ltb_ge.
    rewrite <- delivered_names_length.
    assert (Hsub : expected ⊆+ delivered_names events).
    { apply NoDup_submseteq.
      - unfold expected. repeat (apply NoDup_cons_2;
          [rewrite ?elem_of_cons, elem_of_nil; intuition discriminate|]).
        apply NoDup_nil_2.
      - intros name Hexp. apply run_registered_inv, Hall, Hexp. }
    apply submseteq_length in Hsub. exact Hsub.
Qed.

(** ** Registration and the Ready transition *)

(** Fewer than three delivered clips: the flag stays up, and loads alone
    select nothing. *)
Lemma below_three_stays_loading (events : list Event) :
  length (List.filter delivers events) < totalAnimations ->
  isLoading (run avatar_loaded events) = true
  /\ (Forall (fun e => is_load e = true) events ->
      nothing_selected (run avatar_loaded events)
      /\ running (run avatar_loaded events) = []).
Proof.
  intros Hbelow. split.
  - rewrite loading_while_below_three. now apply Nat.ltb_lt.
  - intros Hloads.
    pose proof (loads_nothing_selected events Hloads Hbelow) as H.
    split; [exact H|now apply nothing_selected_running].
Qed.

(** C6. Whatever the order in which the three loads complete, the
    component ends in the same Ready state: the loading flag is down, the
    registry holds exactly the three names, each bound to an action on its
    retargeted clip, the walking action is the current one and the only
    one running, and it is at the start of its clip. *)
Theorem any_order_same_ready_state
  (clip : string -> AnimationClip) (others : string -> list AnimationClip)
  (order : list string) :
  order ≡ₚ expected ->
  let v := run avatar_loaded
             (map (fun n => AnimationLoaded n (clip n :: others n)) order) in
  isLoading v = false
  /\ dom (actionsRef v) = list_to_set (C := gset string) expected
  /\ (forall n, n ∈ expected ->
        registered v n
        = Some (mkAction (retargetAnimation (clip n)) 0%Q
                         (bool_decide (n = "walking"))))
  /\ currentActionRef v = actionsRef v !! "walking"
  /\ current v = registered v "walking"
  /\ length (running v) = 1.
Proof.
  intros Hperm. symmetry in Hperm. apply permutations_Permutation in Hperm.
  vm_compute in Hperm.
  list_cases Hperm;
    cbv zeta; cbn [map];
    (split; [reflexivity|]); (split; [reflexivity|]);
    (split; [|repeat split; reflexivity]);
    intros n Hn; unfold expected in Hn;
    list_cases Hn; reflexivity.
Qed.

Lemma any_order_same_ready_state_witness :
  ["standing_up"; "walking"; "sitting"] ≡ₚ expected
  /\ current (run avatar_loaded
                [AnimationLoaded "standing_up" [mixamo_clip "standing_up"];
                 AnimationLoaded "walking" [mixamo_clip "walking"];
                 AnimationLoaded "sitting" [mixamo_clip "sitting"]])
     = Some (mkAction (retargetAnimation (mixamo_clip "walking")) 0%Q true).
Proof.
  assert (H : ["standing_up"; "walking"; "sitting"] ≡ₚ expected).
  { unfold expected. etransitivity; [apply Permutation_swap|].
    apply perm_skip, Permutation_swap. }
  split; [exact H|].
  destruct (any_order_same_ready_state mixamo_clip (fun _ => [])
              ["standing_up"; "walking"; "sitting"] H)
    as (_ & _ & Hreg & _ & Hcur & _).
  cbv zeta in Hcur, Hreg. cbn [map] in Hcur, Hreg.
  rewrite Hcur. apply (Hreg "walking"). unfold expected. apply elem_of_cons. now left.
Defined.

(** C7. While fewer than three animations have been registered, be it
    counted by deliveries or, with the one load per name the component
    issues, by an expected name still missing from the registry, the
    component is still loading; and as long as only loads have happened,
    no action has been selected or started. *)
Theorem fewer_than_three_stays_loading (events : list Event) :
  fewer_than_three_registered events ->
  isLoading (run avatar_loaded events) = true
  /\ (Forall (fun e => is_load e = true) events ->
      nothing_selected (run avatar_loaded events)
      /\ running (run avatar_loaded events) = []).
Proof.
  intros [Hbelow|[Hone (name & Hexp & Hmiss)]];
    apply below_three_stays_loading; [exact Hbelow|].
  apply (missing_name_below_three events name Hone Hexp).
  intros Hin. apply (run_registers avatar_loaded) in Hin; [|cbn; eauto].
  rewrite Hmiss in Hin. now destruct Hin.
Qed.

Lemma fewer_than_three_stays_loading_witness :
  let events := [AnimationLoaded "sitting" [mixamo_clip "sitting"];
                 AnimationLoaded "walking" [mixamo_clip "walking"]] in
  isLoading (run avatar_loaded events) = true
  /\ currentActionRef (run avatar_loaded events) = None
  /\ running (run avatar_loaded events) = [].
Proof.
  cbv zeta.
  assert (Hone : one_load_per_name
                   [AnimationLoaded "sitting" [mixamo_clip "sitting"];
                    AnimationLoaded "walking" [mixamo_clip "walking"]]).
  { split.
    - unfold completed_names. cbn. apply NoDup_cons_2; [|apply NoDup_singleton].
      rewrite list_elem_of_singleton. discriminate.
    - unfold completed_names, expected. cbn. intros name Hn.
      rewrite !elem_of_cons in Hn. rewrite !elem_of_cons. tauto. }
  assert (Hmiss : exists name, name ∈ expected
            /\ actionsRef (run avatar_loaded
                 [AnimationLoaded "sitting" [mixamo_clip "sitting"];
                  AnimationLoaded "walking" [mixamo_clip "walking"]]) !! name = None).
  { exists "standing_up". split; [|reflexivity].
    unfold expected. rewrite !elem_of_cons. tauto. }
  destruct (fewer_than_three_stays_loading _ (or_intror (conj Hone Hmiss)))
    as [Hl Hsel].
  split; [exact Hl|].
  destruct Hsel as [[Hcur _] Hrun].
  - repeat constructor.
  - split; [exact Hcur|exact Hrun].
Defined.

(** C10. A load whose asset holds no clip leaves the component as it was:
    nothing is registered, the counter does not move, no error is set.
    So when the three loads have all completed and one of them held no
    clip, the component is still loading, whatever else happened, and the
    loads have selected nothing. *)
Theorem empty_asset_never_ready (events : list Event) (name : string) :
  (forall v, onAnimationLoaded name [] v = v)
  /\ (completed_names events ≡ₚ expected ->
      AnimationLoaded name [] ∈ events ->
      isLoading (run avatar_loaded events) = true
      /\ (Forall (fun e => is_load e = true) events ->
          nothing_selected (run avatar_loaded events)
          /\ running (run avatar_loaded events) = [])).
Proof.
  split.
  - intros v. unfold onAnimationLoaded. now destruct (mixerRef v).
  - intros Hall Hempty. apply below_three_stays_loading.
    pose proof (empty_load_not_counted events name Hempty) as Hlt.
    apply Permutation_length in Hall. rewrite Hall in Hlt. exact Hlt.
Qed.

Lemma empty_asset_never_ready_witness :
  let events := [AnimationLoaded "walking" [mixamo_clip "walking"];
                 AnimationLoaded "sitting" [];
                 AnimationLoaded "standing_up" [mixamo_clip "standing_up"]] in
  isLoading (run avatar_loaded events) = true
  /\ currentActionRef (run avatar_loaded events) = None
  /\ actionsRef (run avatar_loaded events) !! "sitting" = None.
Proof.
  cbv zeta.
  destruct (empty_asset_never_ready
              [AnimationLoaded "walking" [mixamo_clip "walking"];
               AnimationLoaded "sitting" [];
               AnimationLoaded "standing_up" [mixamo_clip "standing_up"]]
              "sitting") as [_ H].
  destruct H as [Hl Hsel].
  - reflexivity.
  - rewrite !elem_of_cons. tauto.
  - split; [exact Hl|]. split; [|reflexivity].
    destruct Hsel as [[Hcur _] _]; [repeat constructor|exact Hcur].
Defined.

(** ** Switching by button *)

(** C1, as the code has it.  Pressing the button of a name that is not
    registered, or pressing any button before the mixer exists, starts
    nothing and leaves the registry, the current-action ref, the counter
    and the flags alone.  Without a mixer, or with no current action, the
    state is unchanged.  Otherwise the current action is stopped and
    rewound, and every other action is left as it was. *)
Theorem playAnimation_unregistered (v : Viewer) (name : string) :
  mixerRef v = None \/ actionsRef v !! name = None ->
  let v' := playAnimation name v in
  (mixerRef v = None \/ currentActionRef v = None -> v' = v)
  /\ actionsRef v' = actionsRef v
  /\ currentActionRef v' = currentActionRef v
  /\ loadedAnimations v' = loadedAnimations v
  /\ isLoading v' = isLoading v
  /\ error v' = error v
  /\ (forall action, currentActionRef v <> Some action ->
        action_at v' action = action_at v action)
  /\ (forall action a, currentActionRef v = Some action ->
        action_at v action = Some a ->
        action_at v' action = Some (mkAction (action_clip a) 0%Q false)).
Proof.
  intros H. cbv zeta. unfold playAnimation, action_at.
  destruct v as [m reg cur n l err]. cbn [mixerRef actionsRef currentActionRef] in *.
  destruct m as [mixer|].
  - destruct H as [H|H]; [discriminate|]. rewrite H.
    cbn [mixerRef actionsRef currentActionRef loadedAnimations isLoading error].
    repeat split.
    + intros [E|E]; [discriminate|]. now rewrite E.
    + intros action Hne. destruct cur as [old|]; [|reflexivity].
      rewrite stop_lookup. rewrite decide_False; [reflexivity|congruence].
    + intros action a -> Ha. rewrite stop_lookup.
      rewrite decide_True by reflexivity. now rewrite Ha.
  - repeat split; try reflexivity. intros action a _ Ha. discriminate.
Qed.

Lemma playAnimation_unregistered_witness :
  let v := run avatar_loaded
             [AnimationLoaded "walking" [mixamo_clip "walking"]; Pressed "walking"] in
  actionsRef v !! "sitting" = None
  /\ current (playAnimation "sitting" v)
     = Some (mkAction (retargetAnimation (mixamo_clip "walking")) 0%Q false).
Proof.
  cbv zeta.
  assert (H : actionsRef
                (run avatar_loaded
                   [AnimationLoaded "walking" [mixamo_clip "walking"]; Pressed "walking"])
              !! "sitting" = None) by reflexivity.
  split; [exact H|].
  destruct (playAnimation_unregistered _ "sitting" (or_intror H))
    as (_ & _ & Hcur & _ & _ & _ & _ & Hstop).
  cbv zeta in Hcur, Hstop. unfold current. rewrite Hcur.
  exact (Hstop 0 (mkAction (retargetAnimation (mixamo_clip "walking")) 0%Q true)
               eq_refl eq_refl).
Defined.

(** C1 as stated does not hold: with only walking registered and running,
    pressing the sitting button stops it. *)
Lemma playAnimation_unregistered_stops_current :
  let v := run avatar_loaded
             [AnimationLoaded "walking" [mixamo_clip "walking"]; Pressed "walking"] in
  actionsRef v !! "sitting" = None
  /\ action_running <$> current v = Some true
  /\ action_running <$> current (playAnimation "sitting" v) = Some false
  /\ running v = [0]
  /\ running (playAnimation "sitting" v) = []
  /\ playAnimation "sitting" v <> v.
Proof.
  cbv zeta. repeat split; try reflexivity.
  intros E. apply (f_equal running) in E. discriminate E.
Qed.

(** C8 on a run the component allows: sitting is selected while the third
    animation is still loading, the third load completes, then the
    standing-up button is pressed.  The Ready transition started walking
    without stopping sitting, so before the press two actions run, and
    after it two actions run again: sitting and standing-up. *)
Theorem playAnimation_after_early_selection :
  let v := run avatar_loaded
             [AnimationLoaded "walking" [mixamo_clip "walking"];
              AnimationLoaded "sitting" [mixamo_clip "sitting"];
              Pressed "sitting";
              AnimationLoaded "standing_up" [mixamo_clip "standing_up"]] in
  actionsRef v !! "walking" = Some 0
  /\ actionsRef v !! "sitting" = Some 1
  /\ actionsRef v !! "standing_up" = Some 2
  /\ currentActionRef v = Some 0
  /\ running v = [0; 1]
  /\ currentActionRef (playAnimation "standing_up" v) = Some 2
  /\ running (playAnimation "standing_up" v) = [1; 2].
Proof. cbv zeta. repeat split; reflexivity. Qed.

(** C9 on a run the component allows: walking is selected while the third
    animation is still loading and a frame is rendered; the third load
    then completes.  The flag goes down and walking is the current action
    and runs, but its clock is where the frame left it, not at zero. *)
Theorem third_load_does_not_restart_walking :
  let before := run avatar_loaded
                  [AnimationLoaded "walking" [mixamo_clip "walking"];
                   AnimationLoaded "sitting" [mixamo_clip "sitting"];
                   Pressed "walking";
                   Frame (16 # 1000)] in
  let after := onAnimationLoaded "standing_up" [mixamo_clip "standing_up"] before in
  isLoading before = true
  /\ isLoading after = false
  /\ (forall name, name ∈ expected -> is_Some (actionsRef after !! name))
  /\ currentActionRef after = actionsRef after !! "walking"
  /\ action_running <$> current after = Some true
  /\ action_time <$> current after = Some (2 # 125)%Q
  /\ action_time <$> current (playAnimation "walking" after) = Some 0%Q.
Proof.
  cbv zeta. repeat split; try reflexivity.
  intros name Hn. unfold expected in Hn.
  list_cases Hn; vm_compute; eauto.
Qed.

(** ** Invariants of runs *)

Lemma run_invariant (P : Viewer -> Prop) :
  (forall v e, P v -> P (handle v e)) ->
  forall v es, P v -> P (run v es).
Proof.
  intros Hstep v es. revert v. induction es as [|e es IH]; intros v Hv; [exact Hv|].
  cbn [run fold_left]. apply IH, Hstep, Hv.
Qed.

Lemma play_length (action : nat) (mixer : AnimationMixer) :
  length (play action mixer) = length mixer.
Proof. apply length_alter. Qed.

Lemma reset_length (action : nat) (mixer : AnimationMixer) :
  length (reset action mixer) = length mixer.
Proof. apply length_alter. Qed.

Lemma stop_length (action : nat) (mixer : AnimationMixer) :
  length (stop action mixer) = length mixer.
Proof. unfold stop. now rewrite reset_length, length_alter. Qed.

Lemma update_lookup (delta : Q) (mixer : AnimationMixer) (i : nat) :
  update delta mixer !! i
  = (fun a => if action_running a
              then mkAction (action_clip a) (Qred (action_time a + delta)) true
              else a) <$> mixer !! i.
Proof. unfold update. apply (list_lookup_fmap _ mixer i). Qed.

Lemma update_length (delta : Q) (mixer : AnimationMixer) :
  length (update delta mixer) = length mixer.
Proof. unfold update. apply length_map. Qed.

(** The mixer after stopping the current action, as [playAnimation]
    does first. *)
Lemma stop_current_lookup (cur : option nat) (mixer : AnimationMixer) (i : nat) :
  match cur with Some c => stop c mixer | None => mixer end !! i
  = if decide (cur = Some i)
    then (fun a => mkAction (action_clip a) 0%Q false) <$> mixer !! i
    else mixer !! i.
Proof.
  destruct cur as [c|].
  - rewrite stop_lookup. destruct (decide (c = i)) as [->|Hne].
    + now rewrite decide_True.
    + rewrite decide_False; [reflexivity|congruence].
  - now rewrite decide_False.
Qed.

Lemma stop_current_length (cur : option nat) (mixer : AnimationMixer) :
  length (match cur with Some c => stop c mixer | None => mixer end)
  = length mixer.
Proof. destruct cur; [apply stop_length|reflexivity]. Qed.

Lemma handle_handles_valid (v : Viewer) (e : Event) :
  handles_valid v -> handles_valid (handle v e).
Proof.
  intros (mixer & Hm & Hreg & Hcur).
  destruct e as [name animations|name|delta]; cbn [handle].
  - unfold onAnimationLoaded. rewrite Hm.
    destruct animations as [|animation rest]; cbn [head];
      [exists mixer; now repeat split|].
    cbv zeta. unfold clipAction.
    assert (Hreg' : forall n h,
               <[name:=length mixer]> (actionsRef v) !! n = Some h ->
               h < S (length mixer)).
    { intros n h H. apply lookup_insert_Some in H as [[_ <-]|[_ H]]; [lia|].
      apply Hreg in H. lia. }
    destruct (Nat.eqb _ _);
      [destruct (<[name:=length mixer]> (actionsRef v) !! "walking") as [w|] eqn:Hw|].
    + exists (play w (mixer ++ [mkAction (retargetAnimation animation) 0%Q false])%list).
      cbn [mixerRef actionsRef currentActionRef].
      rewrite play_length, length_app, Nat.add_1_r. repeat split.
      * exact Hreg'.
      * intros h [= <-]. exact (Hreg' _ _ Hw).
    + exists (mixer ++ [mkAction (retargetAnimation animation) 0%Q false])%list.
      cbn [mixerRef actionsRef currentActionRef].
      rewrite length_app, Nat.add_1_r. repeat split.
      * exact Hreg'.
      * intros h H. apply Hcur in H. lia.
    + exists (mixer ++ [mkAction (retargetAnimation animation) 0%Q false])%list.
      cbn [mixerRef actionsRef currentActionRef].
      rewrite length_app, Nat.add_1_r. repeat split.
      * exact Hreg'.
      * intros h H. apply Hcur in H. lia.
  - unfold playAnimation. rewrite Hm.
    destruct (actionsRef v !! name) as [action|] eqn:Ha.
    + eexists. cbn [mixerRef actionsRef currentActionRef]. split; [reflexivity|].
      rewrite play_length, reset_length, stop_current_length. split; [exact Hreg|].
      intros h [= <-]. exact (Hreg _ _ Ha).
    + eexists. cbn [mixerRef actionsRef currentActionRef]. split; [reflexivity|].
      rewrite stop_current_length. now split.
  - exists (update delta mixer). unfold animate.
    cbn [mixerRef actionsRef currentActionRef]. rewrite Hm.
    rewrite update_length. now repeat split.
Qed.

Lemma avatar_loaded_handles_valid : handles_valid avatar_loaded.
Proof.
  exists []. repeat split.
  - intros name action H. cbn in H. rewrite lookup_empty in H. discriminate.
  - intros action H. discriminate.
Qed.

Lemma run_handles_valid (es : list Event) : handles_valid (run avatar_loaded es).
Proof.
  apply run_invariant; [apply handle_handles_valid|apply avatar_loaded_handles_valid].
Qed.

Lemma handle_idle_at_zero (v : Viewer) (e : Event) :
  idle_at_zero v -> idle_at_zero (handle v e).
Proof.
  intros Hidle. destruct e as [name animations|name|delta]; cbn [handle].
  - unfold onAnimationLoaded. destruct (mixerRef v) as [mixer|] eqn:Hm; [|exact Hidle].
    destruct animations as [|animation rest]; cbn [head]; [exact Hidle|].
    cbv zeta. unfold clipAction.
    assert (Hnew : forall i a,
               (mixer ++ [mkAction (retargetAnimation animation) 0%Q false])%list !! i
               = Some a ->
               action_running a = false -> action_time a = 0%Q).
    { intros i a Ha Hrun. apply lookup_snoc_Some in Ha as [[_ Ha]|[_ <-]]; [|reflexivity].
      apply (Hidle i a); [unfold action_at; now rewrite Hm|exact Hrun]. }
    load_outcomes; intros i a; unfold action_at; cbn [mixerRef]; try apply Hnew.
    rewrite play_lookup. case_decide; [|apply Hnew].
    destruct (_ !! i); [|discriminate]. intros [= <-]. discriminate.
  - unfold playAnimation. destruct (mixerRef v) as [mixer|] eqn:Hm; [|exact Hidle].
    assert (Hstopped : forall i a,
               match currentActionRef v with
               | Some c => stop c mixer
               | None => mixer
               end !! i = Some a ->
               action_running a = false -> action_time a = 0%Q).
    { intros i a Ha Hrun. rewrite stop_current_lookup in Ha. case_decide.
      - destruct (mixer !! i); [|discriminate]. now injection Ha as <-.
      - apply (Hidle i a); [unfold action_at; now rewrite Hm|exact Hrun]. }
    destruct (actionsRef v !! name) as [action|]; intros i a;
      unfold action_at; cbn [mixerRef]; [|apply Hstopped].
    rewrite play_lookup. case_decide.
    + destruct (_ !! i); [|discriminate]. intros [= <-]. discriminate.
    + rewrite reset_lookup. rewrite decide_False by assumption. apply Hstopped.
  - intros i a. unfold action_at, animate. cbn [mixerRef].
    destruct (mixerRef v) as [mixer|] eqn:Hm; [|discriminate]. cbn.
    rewrite update_lookup. destruct (mixer !! i) as [a0|] eqn:Ha0; [|discriminate].
    cbn. destruct (action_running a0) eqn:Hr; intros [= <-]; [discriminate|].
    intros _. apply (Hidle i a0); [unfold action_at; now rewrite Hm|exact Hr].
Qed.

Lemma run_idle_at_zero (es : list Event) : idle_at_zero (run avatar_loaded es).
Proof.
  apply run_invariant; [apply handle_idle_at_zero|].
  intros i a H. unfold action_at in H. cbn in H. now rewrite lookup_nil in H.
Qed.

Lemma playAnimation_isLoading (name : string) (v : Viewer) :
  isLoading (playAnimation name v) = isLoading v.
Proof.
  unfold playAnimation. destruct (mixerRef v); [|reflexivity].
  now destruct (actionsRef v !! name).
Qed.

(** One step of a run in which buttons are pressed only once the flag is
    down: at most the current action runs, and nothing is current while
    the flag is up. *)
Lemma handle_single (v : Viewer) (e : Event) :
  counting v ->
  (forall name, e = Pressed name -> isLoading v = false) ->
  only_current_runs v /\ (isLoading v = true -> currentActionRef v = None) ->
  only_current_runs (handle v e)
  /\ (isLoading (handle v e) = true -> currentActionRef (handle v e) = None).
Proof.
  intros [[mixer Hm] Hl] Hpress [Honly Hnone].
  destruct e as [name animations|name|delta]; cbn [handle].
  - unfold onAnimationLoaded. rewrite Hm.
    destruct animations as [|animation rest]; cbn [head]; [now split|].
    cbv zeta. unfold clipAction.
    assert (Hold : forall i a,
               (mixer ++ [mkAction (retargetAnimation animation) 0%Q false])%list !! i
               = Some a ->
               action_running a = true -> currentActionRef v = Some i).
    { intros i a Ha Hrun. apply lookup_snoc_Some in Ha as [[_ Ha]|[_ <-]]; [|discriminate].
      apply (Honly i a); [unfold action_at; now rewrite Hm|exact Hrun]. }
    destruct (Nat.eqb_spec (S (loadedAnimations v)) totalAnimations) as [E|E].
    + assert (Hcur : currentActionRef v = None).
      { apply Hnone. rewrite Hl. apply Nat.ltb_lt. lia. }
      destruct (_ !! "walking") as [w|]; (split; [|discriminate]);
        intros i a; unfold action_at; cbn [mixerRef currentActionRef].
      * rewrite play_lookup. case_decide as Hw; [now subst|].
        intros Ha Hrun. specialize (Hold i a Ha Hrun). congruence.
      * apply Hold.
    + split; [|exact Hnone]. intros i a. unfold action_at.
      cbn [mixerRef currentActionRef]. apply Hold.
  - specialize (Hpress name eq_refl). split.
    + now apply playAnimation_keeps_single.
    + rewrite playAnimation_isLoading, Hpress. discriminate.
  - split; [|exact Hnone]. intros i a. unfold action_at, animate.
    cbn [mixerRef currentActionRef]. rewrite Hm. cbn. rewrite update_lookup.
    destruct (mixer !! i) as [a0|] eqn:Ha0; [|discriminate]. cbn.
    destruct (action_running a0) eqn:Hr; intros [= <-] Hrun.
    + apply (Honly i a0); [unfold action_at; now rewrite Hm|exact Hr].
    + congruence.
Qed.

Lemma run_single (es : list Event) :
  no_press_while_loading es ->
  only_current_runs (run avatar_loaded es)
  /\ (isLoading (run avatar_loaded es) = true ->
      currentActionRef (run avatar_loaded es) = None).
Proof.
  induction es as [|e es IH] using rev_ind; intros Hpress.
  - split; [|reflexivity]. intros i a H. unfold action_at in H. cbn in H.
    now rewrite lookup_nil in H.
  - rewrite run_snoc. apply handle_single.
    + apply run_counting, avatar_loaded_counting.
    + intros name ->. exact (Hpress es name [] eq_refl).
    + apply IH. intros pre name post E. apply (Hpress pre name (post ++ [e])%list).
      rewrite E, <- app_assoc. reflexivity.
Qed.

Lemma only_current_runs_length (v : Viewer) :
  only_current_runs v -> length (running v) <= 1.
Proof.
  intros Honly. unfold running. destruct (mixerRef v) as [mixer|] eqn:Hm; [|cbn; lia].
  set (f := fun i => match mixer !! i with
                     | Some a => action_running a
                     | None => false
                     end).
  assert (Hall : forall x, In x (List.filter f (seq 0 (length mixer))) ->
                           currentActionRef v = Some x).
  { intros x Hx. apply filter_In in Hx as [_ Hf]. unfold f in Hf.
    destruct (mixer !! x) as [a|] eqn:Ha; [|discriminate].
    apply (Honly x a); [unfold action_at; now rewrite Hm|exact Hf]. }
  assert (Hnd : List.NoDup (List.filter f (seq 0 (length mixer))))
    by apply List.NoDup_filter, List.seq_NoDup.
  destruct (List.filter f (seq 0 (length mixer))) as [|x [|y l]]; cbn [length]; try lia.
  exfalso. assert (Hx := Hall x (or_introl eq_refl)).
  assert (Hy := Hall y (or_intror (or_introl eq_refl))).
  apply List.NoDup_cons_iff in Hnd as [Hnd _]. apply Hnd. left. congruence.
Qed.

(** ** The clips of the mixer *)

Lemma clips_alter (f : AnimationAction -> AnimationAction) (i : nat)
  (mixer : AnimationMixer) :
  (forall a, action_clip (f a) = action_clip a) ->
  map action_clip (alter f i mixer) = map action_clip mixer.
Proof.
  intros Hf. revert i. induction mixer as [|a l IH]; intros i; [reflexivity|].
  destruct i as [|i]; cbn; [now rewrite Hf|]. f_equal. apply IH.
Qed.

Lemma clips_play (action : nat) (mixer : AnimationMixer) :
  map action_clip (play action mixer) = map action_clip mixer.
Proof. now apply clips_alter. Qed.

Lemma clips_reset (action : nat) (mixer : AnimationMixer) :
  map action_clip (reset action mixer) = map action_clip mixer.
Proof. now apply clips_alter. Qed.

Lemma clips_stop (action : nat) (mixer : AnimationMixer) :
  map action_clip (stop action mixer) = map action_clip mixer.
Proof. unfold stop. rewrite clips_reset. now apply clips_alter. Qed.

Lemma clips_update (delta : Q) (mixer : AnimationMixer) :
  map action_clip (update delta mixer) = map action_clip mixer.
Proof.
  unfold update. rewrite map_map. apply map_ext. intros a.
  now destruct (action_running a).
Qed.

(** A step leaves the clips of the mixer's actions alone and adds the
    retargeted clip of a delivering load at the end. *)
Lemma handle_clips (v : Viewer) (e : Event) (mixer : AnimationMixer) :
  mixerRef v = Some mixer ->
  exists mixer', mixerRef (handle v e) = Some mixer'
    /\ map action_clip mixer'
       = (map action_clip mixer ++ delivered_clips [e])%list.
Proof.
  intros Hm. destruct e as [name animations|name|delta]; cbn [handle].
  - unfold onAnimationLoaded. rewrite Hm.
    destruct animations as [|animation rest]; cbn [head].
    + exists mixer. split; [exact Hm|]. cbn. now rewrite app_nil_r.
    + cbv zeta. unfold clipAction.
      load_outcomes; eexists; (split; [reflexivity|]);
        rewrite ?clips_play, map_app; reflexivity.
  - unfold playAnimation. rewrite Hm.
    assert (Hs : map action_clip
                   match currentActionRef v with
                   | Some c => stop c mixer
                   | None => mixer
                   end = map action_clip mixer)
      by (destruct (currentActionRef v); [apply clips_stop|reflexivity]).
    destruct (actionsRef v !! name); eexists; (split; [reflexivity|]);
      rewrite ?clips_play, ?clips_reset, Hs; cbn; now rewrite app_nil_r.
  - exists (update delta mixer). unfold animate. cbn [mixerRef]. rewrite Hm.
    split; [reflexivity|]. rewrite clips_update. cbn. now rewrite app_nil_r.
Qed.

Lemma delivered_clips_app (es1 es2 : list Event) :
  delivered_clips (es1 ++ es2)%list
  = (delivered_clips es1 ++ delivered_clips es2)%list.
Proof. apply omap_app. Qed.

Lemma run_clips (es : list Event) :
  exists mixer, mixerRef (run avatar_loaded es) = Some mixer
    /\ map action_clip mixer = delivered_clips es.
Proof.
  induction es as [|e es IH] using rev_ind.
  - exists []. now split.
  - destruct IH as (mixer & Hm & Hc). rewrite run_snoc.
    destruct (handle_clips _ e mixer Hm) as (mixer' & Hm' & Hc').
    exists mixer'. split; [exact Hm'|]. now rewrite Hc', Hc, delivered_clips_app.
Qed.

Lemma clip_lookup (mixer : AnimationMixer) (i : nat) :
  map action_clip mixer !! i = action_clip <$> mixer !! i.
Proof. exact (list_lookup_fmap action_clip mixer i). Qed.

(** What a step does to the registry. *)
Lemma handle_registry (v : Viewer) (e : Event) (n : string) (mixer : AnimationMixer) :
  mixerRef v = Some mixer ->
  actionsRef (handle v e) !! n
  = match e with
    | AnimationLoaded name (_ :: _) =>
        if String.eqb name n then Some (length mixer) else actionsRef v !! n
    | _ => actionsRef v !! n
    end.
Proof.
  intros Hm. destruct e as [name animations|name|delta]; cbn [handle].
  - unfold onAnimationLoaded. rewrite Hm.
    destruct animations as [|animation rest]; cbn [head]; [reflexivity|].
    cbv zeta. unfold clipAction.
    assert (H : <[name:=length mixer]> (actionsRef v) !! n
                = if String.eqb name n then Some (length mixer) else actionsRef v !! n).
    { rewrite lookup_insert. destruct (String.eqb_spec name n) as [->|Hne].
      - now rewrite decide_True.
      - now rewrite decide_False. }
    load_outcomes; exact H.
  - unfold playAnimation. rewrite Hm. now destruct (actionsRef v !! name).
  - reflexivity.
Qed.

Lemma handle_error (v : Viewer) (e : Event) : error (handle v e) = error v.
Proof.
  destruct e as [name animations|name|delta]; cbn [handle].
  - unfold onAnimationLoaded. destruct (mixerRef v); [|reflexivity].
    destruct (head animations); [|reflexivity]. cbv zeta. unfold clipAction.
    load_outcomes; reflexivity.
  - unfold playAnimation. destruct (mixerRef v); [|reflexivity].
    now destruct (actionsRef v !! name).
  - reflexivity.
Qed.

(** Stopping an action that was just rewound and started, when it was
    idle at the start of its clip before, leaves the mixer as it was. *)
Lemma stop_play_reset_idle (action : nat) (mixer : AnimationMixer) :
  (forall a, mixer !! action = Some a ->
             action_running a = false /\ action_time a = 0%Q) ->
  stop action (play action (reset action mixer)) = mixer.
Proof.
  intros Hidle. apply list_eq. intros i. rewrite stop_lookup.
  destruct (decide (action = i)) as [<-|Hne].
  - rewrite play_lookup. rewrite decide_True by reflexivity.
    rewrite reset_lookup. rewrite decide_True by reflexivity.
    destruct (mixer !! action) as [a|] eqn:Ha; [|reflexivity].
    destruct (Hidle a eq_refl) as [Hr Ht]. destruct a as [c t r].
    cbn in *. now subst.
  - rewrite play_lookup. rewrite decide_False by assumption.
    rewrite reset_lookup. now rewrite decide_False by assumption.
Qed.

Lemma play_reset_stop_again (action : nat) (mixer : AnimationMixer) :
  play action (reset action (stop action (play action (reset action mixer))))
  = play action (reset action mixer).
Proof.
  apply list_eq. intros i. rewrite !play_lookup.
  destruct (decide (action = i)) as [<-|Hne].
  - rewrite reset_lookup. rewrite decide_True by reflexivity.
    rewrite stop_lookup. rewrite decide_True by reflexivity.
    rewrite play_lookup. rewrite decide_True by reflexivity.
    rewrite !reset_lookup. rewrite decide_True by reflexivity.
    now destruct (mixer !! action).
  - rewrite reset_lookup. rewrite decide_False by assumption.
    rewrite stop_lookup. rewrite decide_False by assumption.
    rewrite play_lookup. now rewrite decide_False by assumption.
Qed.

Lemma stop_stop (action : nat) (mixer : AnimationMixer) :
  stop action (stop action mixer) = stop action mixer.
Proof.
  apply list_eq. intros i. rewrite !stop_lookup.
  destruct (decide (action = i)); [|reflexivity]. now destruct (mixer !! i).
Qed.

(** ** More on loading *)

(** X5. Whatever buttons and frames come in between, the counter is the
    number of loads that delivered a clip, and the loading flag is up
    exactly while that number is below three. *)
Theorem loading_flag_counts_deliveries (events : list Event) :
  loadedAnimations (run avatar_loaded events)
  = length (List.filter delivers events)
  /\ (isLoading (run avatar_loaded events) = true
      <-> length (List.filter delivers events) < 3).
Proof.
  destruct (run_counting avatar_loaded events avatar_loaded_counting) as [_ Hn].
  split; [exact Hn|]. rewrite loading_while_below_three. apply Nat.ltb_lt.
Qed.

(** X6. Nothing puts the loading flag back up: once it is down it is down
    after every further load, press and frame. *)
Theorem loading_flag_stays_down (v : Viewer) (events : list Event) :
  isLoading v = false -> isLoading (run v events) = false.
Proof. apply loading_never_returns. Qed.

Lemma loading_flag_stays_down_witness :
  isLoading (run avatar_loaded three_loads) = false
  /\ isLoading (run (run avatar_loaded three_loads)
                    [Pressed "sitting"; Frame (16 # 1000);
                     AnimationLoaded "walking" [mixamo_clip "walking"]]) = false.
Proof.
  assert (H : isLoading (run avatar_loaded three_loads) = false) by reflexivity.
  split; [exact H|]. exact (loading_flag_stays_down _ _ H).
Defined.

(** X7. With the loads the component issues, one per name, the loading
    flag is down exactly when the registry holds walking, sitting and
    standing_up, whatever buttons and frames come in between. *)
Theorem ready_exactly_when_complete (events : list Event) :
  one_load_per_name events ->
  isLoading (run avatar_loaded events) = false
  <-> (forall name, name ∈ expected ->
         is_Some (actionsRef (run avatar_loaded events) !! name)).
Proof. apply ready_iff_complete. Qed.

Lemma ready_exactly_when_complete_witness :
  one_load_per_name three_loads
  /\ (forall name, name ∈ expected ->
        is_Some (actionsRef (run avatar_loaded three_loads) !! name)).
Proof.
  assert (H : one_load_per_name three_loads).
  { split.
    - unfold completed_names, three_loads. cbn.
      repeat (apply NoDup_cons_2;
              [rewrite ?elem_of_cons, elem_of_nil; intuition discriminate|]).
      apply NoDup_nil_2.
    - unfold completed_names, three_loads, expected. cbn. intros name Hn.
      rewrite !elem_of_cons in Hn. rewrite !elem_of_cons. tauto. }
  split; [exact H|].
  apply (proj1 (ready_exactly_when_complete three_loads H)). reflexivity.
Defined.

(** ** What every run keeps *)

(** X11. No ref dangles: in every run, a name in the registry is bound to
    an action of the mixer, and so is the current-action ref when set. *)
Theorem refs_never_dangle (events : list Event) (name : string) :
  (is_Some (actionsRef (run avatar_loaded events) !! name) ->
   is_Some (registered (run avatar_loaded events) name))
  /\ (is_Some (currentActionRef (run avatar_loaded events)) ->
      is_Some (current (run avatar_loaded events))).
Proof.
  destruct (run_handles_valid events) as (mixer & Hm & Hreg & Hcur).
  unfold registered, current, action_at. rewrite Hm. split.
  - intros [h Hh]. rewrite Hh. apply lookup_lt_is_Some_2. exact (Hreg _ _ Hh).
  - intros [h Hh]. rewrite Hh. apply lookup_lt_is_Some_2. exact (Hcur _ Hh).
Qed.

Lemma refs_never_dangle_witness :
  is_Some (registered (run avatar_loaded (three_loads ++ [Pressed "sitting"])%list)
                      "sitting")
  /\ is_Some (current (run avatar_loaded (three_loads ++ [Pressed "sitting"])%list)).
Proof.
  destruct (refs_never_dangle (three_loads ++ [Pressed "sitting"])%list "sitting")
    as [Hreg Hcur].
  split; [apply Hreg|apply Hcur]; vm_compute; eauto.
Defined.

(** X12. In every run, an action that is not running is at the start of
    its clip: new actions start there, [stop] rewinds, and frames move
    running actions only. *)
Theorem idle_actions_are_rewound
  (events : list Event) (action : nat) (a : AnimationAction) :
  action_at (run avatar_loaded events) action = Some a ->
  action_running a = false ->
  action_time a = 0%Q.
Proof. apply run_idle_at_zero. Qed.

Lemma idle_actions_are_rewound_witness :
  let events := (three_loads
                 ++ [Pressed "sitting"; Frame (16 # 1000); Pressed "walking"])%list in
  action_at (run avatar_loaded events) 0
  = Some (mkAction (retargetAnimation (mixamo_clip "sitting")) 0%Q false).
Proof.
  cbv zeta.
  destruct (action_at
              (run avatar_loaded
                 (three_loads
                  ++ [Pressed "sitting"; Frame (16 # 1000); Pressed "walking"])%list)
              0) as [a|] eqn:Ha; [|discriminate Ha].
  assert (Hr : action_running a = false) by (now injection Ha as <-).
  pose proof (idle_actions_are_rewound _ 0 a Ha Hr) as Ht.
  destruct a as [c t r]. cbn in Hr, Ht. subst t r.
  f_equal. f_equal. now injection Ha.
Defined.

(** X13. If no button is pressed while the component is loading, then at
    every point of the run the only action that can be running is the
    current one, so at most one action runs. *)
Theorem one_action_runs_without_early_press (events : list Event) :
  no_press_while_loading events ->
  only_current_runs (run avatar_loaded events)
  /\ length (running (run avatar_loaded events)) <= 1.
Proof.
  intros Hpress. destruct (run_single events Hpress) as [Honly _].
  split; [exact Honly|]. now apply only_current_runs_length.
Qed.

(** X16. The mixer holds one action per delivered clip, in arrival order,
    each on the retargeted clip; presses and frames never add, drop or
    rebind an action. *)
Theorem mixer_holds_delivered_clips (events : list Event) :
  map action_clip <$> mixerRef (run avatar_loaded events)
  = Some (delivered_clips events).
Proof.
  destruct (run_clips events) as (mixer & Hm & Hc). rewrite Hm. cbn. now rewrite Hc.
Qed.

(** X17. The registry is last-write-wins: the action registered under a
    name plays the retargeted clip of the last load that delivered one
    under that name, and there is none if no load did. *)
Theorem registry_last_write_wins (events : list Event) (name : string) :
  action_clip <$> registered (run avatar_loaded events) name
  = retargetAnimation <$> last_delivered name events.
Proof.
  induction events as [|e es IH] using rev_ind.
  - unfold registered. cbn. now rewrite lookup_empty.
  - destruct (run_handles_valid es) as (mixer & Hm & Hreg & _).
    destruct (handle_clips _ e mixer Hm) as (mixer' & Hm' & Hc').
    assert (Hold : forall h, h < length mixer ->
                             action_clip <$> mixer' !! h = action_clip <$> mixer !! h).
    { intros h Hh. rewrite <- !clip_lookup, Hc'.
      apply lookup_app_l. now rewrite length_map. }
    assert (Hlast : last_delivered name (es ++ [e])%list
                    = match e with
                      | AnimationLoaded n (animation :: _) =>
                          if String.eqb n name then Some animation
                          else last_delivered name es
                      | _ => last_delivered name es
                      end).
    { unfold last_delivered. rewrite fold_left_app. reflexivity. }
    rewrite Hlast. clear Hlast.
    unfold registered, action_at in IH. rewrite Hm in IH.
    rewrite run_snoc. unfold registered, action_at.
    rewrite (handle_registry _ e name mixer Hm), Hm'.
    assert (Hkeep : action_clip <$>
                      match actionsRef (run avatar_loaded es) !! name with
                      | Some h => mixer' !! h
                      | None => None
                      end
                    = retargetAnimation <$> last_delivered name es).
    { rewrite <- IH.
      destruct (actionsRef (run avatar_loaded es) !! name) as [h|] eqn:Hh;
        [apply Hold, (Hreg _ _ Hh)|reflexivity]. }
    destruct e as [n [|animation rest]|n|delta]; try exact Hkeep.
    destruct (String.eqb n name); [|exact Hkeep].
    rewrite <- clip_lookup, Hc'. cbn.
    rewrite lookup_app_r by (rewrite length_map; lia).
    rewrite length_map, Nat.sub_diag. reflexivity.
Qed.

Lemma one_action_runs_without_early_press_witness :
  let events := (three_loads ++ [Pressed "sitting"; Pressed "standing_up"])%list in
  no_press_while_loading events
  /\ length (running (run avatar_loaded events)) <= 1.
Proof.
  cbv zeta.
  assert (H : no_press_while_loading
                (three_loads ++ [Pressed "sitting"; Pressed "standing_up"])%list).
  { intros pre name post E. unfold three_loads in E. cbn [app] in E.
    split_at_press E pre. }
  split; [exact H|].
  exact (proj2 (one_action_runs_without_early_press _ H)).
Defined.

(** ** More on switching *)

(** X8. In every run, pressing the button of a registered name makes its
    action the current one, rewound and running; the action that was
    current, if another, ends up stopped and rewound; every other action
    is left as it was. *)
Theorem switch_to_registered (events : list Event) (name : string) (target : nat) :
  let v := run avatar_loaded events in
  let v' := playAnimation name v in
  actionsRef v !! name = Some target ->
  currentActionRef v' = Some target
  /\ (exists a, registered v name = Some a
                /\ current v' = Some (mkAction (action_clip a) 0%Q true))
  /\ (forall old a, currentActionRef v = Some old -> old <> target ->
        action_at v old = Some a ->
        action_at v' old = Some (mkAction (action_clip a) 0%Q false))
  /\ (forall i, i <> target -> currentActionRef v <> Some i ->
        action_at v' i = action_at v i).
Proof.
  cbv zeta. intros Hreg.
  destruct (run_handles_valid events) as (mixer & Hm & Hvalid & _).
  destruct (playAnimation_registered _ name target mixer Hm Hreg)
    as (Hcur & Htarget & Hold & Hother & _).
  cbv zeta in Hcur, Htarget, Hold, Hother.
  split; [exact Hcur|]. split; [|split; [exact Hold|exact Hother]].
  destruct (lookup_lt_is_Some_2 mixer target (Hvalid _ _ Hreg)) as [a Ha].
  assert (Hat : action_at (run avatar_loaded events) target = Some a)
    by (unfold action_at; now rewrite Hm).
  exists a. unfold registered, current. rewrite Hreg, Hcur. split; [exact Hat|].
  now apply Htarget.
Qed.

Lemma switch_to_registered_witness :
  actionsRef (run avatar_loaded three_loads) !! "sitting" = Some 0
  /\ current (playAnimation "sitting" (run avatar_loaded three_loads))
     = Some (mkAction (retargetAnimation (mixamo_clip "sitting")) 0%Q true)
  /\ action_at (playAnimation "sitting" (run avatar_loaded three_loads)) 1
     = Some (mkAction (retargetAnimation (mixamo_clip "walking")) 0%Q false).
Proof.
  assert (H : actionsRef (run avatar_loaded three_loads) !! "sitting" = Some 0)
    by reflexivity.
  split; [exact H|].
  destruct (switch_to_registered three_loads "sitting" 0 H)
    as (_ & (a & Ha & Hcur) & Hold & _).
  split.
  - rewrite Hcur. injection Ha as <-. reflexivity.
  - apply (Hold 1 (mkAction (retargetAnimation (mixamo_clip "walking")) 0%Q true));
      [reflexivity|discriminate|reflexivity].
Defined.

(** X9. Pressing the same button twice in a row leaves the component as
    pressing it once does, whether the name is registered or not. *)
Theorem press_twice_is_once (name : string) (v : Viewer) :
  playAnimation name (playAnimation name v) = playAnimation name v.
Proof.
  destruct v as [m reg cur n l err]. unfold playAnimation.
  cbn [mixerRef actionsRef currentActionRef loadedAnimations isLoading error].
  destruct m as [mixer|]; [|reflexivity].
  destruct (reg !! name) as [h|] eqn:Hn;
    cbn [mixerRef actionsRef currentActionRef loadedAnimations isLoading error];
    rewrite Hn.
  - now rewrite play_reset_stop_again.
  - destruct cur as [c|]; [|reflexivity]. now rewrite stop_stop.
Qed.

(** X10. When at most the current action runs and idle actions are
    rewound, as in every run without a press during loading, only the
    last of two presses counts if it names a registered animation. *)
Theorem last_press_wins (v : Viewer) (first second : string) :
  only_current_runs v -> idle_at_zero v ->
  is_Some (actionsRef v !! second) ->
  playAnimation second (playAnimation first v) = playAnimation second v.
Proof.
  intros Honly Hidle [hb Hb].
  destruct v as [m reg cur n l err]. unfold playAnimation.
  unfold only_current_runs, idle_at_zero, action_at in *.
  cbn [mixerRef actionsRef currentActionRef loadedAnimations isLoading error] in *.
  destruct m as [mixer|]; [|reflexivity].
  destruct (reg !! first) as [ha|] eqn:Ha;
    cbn [mixerRef actionsRef currentActionRef loadedAnimations isLoading error];
    rewrite Hb.
  - rewrite stop_play_reset_idle; [reflexivity|].
    intros a Hlook. rewrite stop_current_lookup in Hlook. case_decide as Hc.
    + destruct (mixer !! ha); [|discriminate]. now injection Hlook as <-.
    + destruct (action_running a) eqn:Hr.
      * specialize (Honly ha a Hlook Hr). congruence.
      * split; [reflexivity|]. exact (Hidle ha a Hlook Hr).
  - destruct cur as [c|]; [|reflexivity]. now rewrite stop_stop.
Qed.

Lemma last_press_wins_witness :
  let v := run avatar_loaded three_loads in
  only_current_runs v /\ idle_at_zero v
  /\ playAnimation "standing_up" (playAnimation "sitting" v)
     = playAnimation "standing_up" v.
Proof.
  cbv zeta.
  assert (Hpress : no_press_while_loading three_loads).
  { intros pre name post E. unfold three_loads in E. split_at_press E pre. }
  assert (Honly : only_current_runs (run avatar_loaded three_loads))
    by exact (proj1 (run_single three_loads Hpress)).
  assert (Hidle : idle_at_zero (run avatar_loaded three_loads))
    by exact (run_idle_at_zero three_loads).
  split; [exact Honly|]. split; [exact Hidle|].
  apply (last_press_wins _ "sitting" "standing_up" Honly Hidle).
  vm_compute. eauto.
Defined.

(** X14. The load that brings the count to three takes the loading flag
    down and leaves walking current, running and at the start of its
    clip, provided walking arrives with that load or is registered and
    not already running. *)
Theorem third_delivery_starts_walking
  (events : list Event) (name : string) (animation : AnimationClip)
  (rest : list AnimationClip) :
  let v := run avatar_loaded events in
  let v' := onAnimationLoaded name (animation :: rest) v in
  length (List.filter delivers events) = 2 ->
  name = "walking"
  \/ (exists a, registered v "walking" = Some a /\ action_running a = false) ->
  isLoading v = true
  /\ isLoading v' = false
  /\ exists clip, current v' = Some (mkAction clip 0%Q true)
                  /\ registered v' "walking" = current v'.
Proof.
  cbv zeta. intros Hcount Hwalk.
  destruct (run_counting avatar_loaded events avatar_loaded_counting) as [_ Hn].
  rewrite Hcount in Hn. cbn in Hn.
  split; [rewrite loading_while_below_three, Hcount; reflexivity|].
  destruct (run_handles_valid events) as (mixer & Hm & Hvalid & _).
  pose proof (run_idle_at_zero events) as Hidle.
  unfold onAnimationLoaded. rewrite Hm, Hn. cbn [head]. cbv zeta.
  unfold clipAction. cbn [Nat.eqb totalAnimations].
  destruct (decide (name = "walking")) as [->|Hne].
  - rewrite lookup_insert_eq. split; [reflexivity|].
    exists (retargetAnimation animation).
    unfold registered, current, action_at.
    cbn [mixerRef actionsRef currentActionRef]. rewrite lookup_insert_eq.
    split; [|reflexivity]. rewrite play_lookup. rewrite decide_True by reflexivity.
    now rewrite list_lookup_middle.
  - destruct Hwalk as [E|(a & Ha & Hr)]; [contradiction|].
    rewrite lookup_insert_ne by exact Hne.
    unfold registered, action_at in Ha. rewrite Hm in Ha.
    destruct (actionsRef (run avatar_loaded events) !! "walking") as [w|] eqn:Hw;
      [|discriminate].
    split; [reflexivity|]. exists (action_clip a).
    unfold registered, current, action_at.
    cbn [mixerRef actionsRef currentActionRef].
    rewrite lookup_insert_ne by exact Hne. rewrite Hw. split; [|reflexivity].
    rewrite play_lookup. rewrite decide_True by reflexivity.
    rewrite lookup_app_l by (now apply lookup_lt_Some in Ha). rewrite Ha. cbn.
    rewrite (Hidle w a); [reflexivity| |exact Hr].
    unfold action_at. now rewrite Hm.
Qed.

Lemma third_delivery_starts_walking_witness :
  let events := [AnimationLoaded "walking" [mixamo_clip "walking"];
                 AnimationLoaded "sitting" [mixamo_clip "sitting"];
                 Pressed "walking"; Frame (16 # 1000);
                 Pressed "sitting"; Frame (16 # 1000)] in
  action_time <$> current (run avatar_loaded events) = Some (2 # 125)%Q
  /\ exists clip,
       current (onAnimationLoaded "standing_up" [mixamo_clip "standing_up"]
                  (run avatar_loaded events))
       = Some (mkAction clip 0%Q true).
Proof.
  cbv zeta. split; [reflexivity|].
  destruct (third_delivery_starts_walking
              [AnimationLoaded "walking" [mixamo_clip "walking"];
               AnimationLoaded "sitting" [mixamo_clip "sitting"];
               Pressed "walking"; Frame (16 # 1000);
               Pressed "sitting"; Frame (16 # 1000)]
              "standing_up" (mixamo_clip "standing_up") [])
    as (_ & _ & clip & Hcur & _).
  - reflexivity.
  - right. eexists. split; reflexivity.
  - exists clip. exact Hcur.
Defined.

(** X15. Once the loading flag is down, the loads having been one per
    name, each of the three buttons finds its animation registered:
    pressing it makes that action the current one, running from the
    start of its clip. *)
Theorem every_button_switches_when_ready (events : list Event) (name : string) :
  let v := run avatar_loaded events in
  one_load_per_name events ->
  isLoading v = false ->
  name ∈ buttons ->
  exists a, registered v name = Some a
            /\ current (playAnimation name v)
               = Some (mkAction (action_clip a) 0%Q true).
Proof.
  cbv zeta. intros Hone Hready Hname.
  destruct (proj1 (ready_iff_complete events Hone) Hready name Hname) as [h Hh].
  destruct (run_handles_valid events) as (mixer & Hm & Hvalid & _).
  destruct (playAnimation_registered _ name h mixer Hm Hh) as (Hcur & Htarget & _).
  cbv zeta in Hcur, Htarget.
  destruct (lookup_lt_is_Some_2 mixer h (Hvalid _ _ Hh)) as [a Ha].
  assert (Hat : action_at (run avatar_loaded events) h = Some a)
    by (unfold action_at; now rewrite Hm).
  exists a. unfold registered, current. rewrite Hh, Hcur. split; [exact Hat|].
  now apply Htarget.
Qed.

Lemma every_button_switches_when_ready_witness :
  one_load_per_name three_loads
  /\ current (playAnimation "standing_up" (run avatar_loaded three_loads))
     = Some (mkAction (retargetAnimation (mixamo_clip "standing_up")) 0%Q true).
Proof.
  assert (H : one_load_per_name three_loads).
  { split.
    - unfold completed_names, three_loads. cbn.
      repeat (apply NoDup_cons_2;
              [rewrite ?elem_of_cons, elem_of_nil; intuition discriminate|]).
      apply NoDup_nil_2.
    - unfold completed_names, three_loads, expected. cbn. intros name Hn.
      rewrite !elem_of_cons in Hn. rewrite !elem_of_cons. tauto. }
  split; [exact H|].
  destruct (every_button_switches_when_ready three_loads "standing_up" H)
    as (a & Ha & Hcur).
  - reflexivity.
  - unfold buttons. rewrite !elem_of_cons. tauto.
  - rewrite Hcur. injection Ha as <-. reflexivity.
Defined.

(** ** Before the avatar is there, and after a failure *)

(** X18. Without a mixer the buttons do nothing: before the avatar has
    loaded, and for good after its load or the set-up failed, any
    sequence of presses leaves the component as it was. *)
Theorem buttons_inert_without_mixer (v : Viewer) (names : list string) :
  mixerRef v = None -> run v (map Pressed names) = v.
Proof.
  intros Hm. induction names as [|name names IH]; [reflexivity|].
  cbn [map run fold_left handle]. unfold playAnimation. rewrite Hm. exact IH.
Qed.

Lemma buttons_inert_without_mixer_witness :
  mixerRef (onModelError mounted) = None
  /\ run (onModelError mounted) (map Pressed buttons) = onModelError mounted.
Proof.
  assert (H : mixerRef (onModelError mounted) = None) by reflexivity.
  split; [exact H|]. exact (buttons_inert_without_mixer _ buttons H).
Defined.

(** X19. The loading overlay and the error overlay are never shown
    together, and the error overlay is shown exactly when the set-up or
    the avatar load failed: no load of an animation, press or frame ever
    raises it. *)
Theorem overlays_exclusive (o : Outcome) :
  showsLoading (state_of o) && showsError (state_of o) = false
  /\ (showsError (state_of o) = true <-> o = InitFailed \/ o = AvatarFailed).
Proof.
  destruct o as [| | |events]; cbn [state_of].
  - split; [reflexivity|]. split; [now left|reflexivity].
  - split; [reflexivity|]. split; [discriminate|intros [H|H]; discriminate H].
  - split; [reflexivity|]. split; [now right|reflexivity].
  - assert (Herr : error (run avatar_loaded events) = None).
    { apply (run_invariant (fun v => error v = None)); [|reflexivity].
      intros v e Hv. now rewrite handle_error. }
    unfold showsError. rewrite Herr. split; [apply andb_false_r|].
    split; [discriminate|intros [H|H]; discriminate H].
Qed.

(** ** Frames while loading *)

Lemma animate_idle (delta : Q) (v : Viewer) :
  (forall action a, action_at v action = Some a -> action_running a = false) ->
  animate delta v = v.
Proof.
  intros Hidle. destruct v as [m reg cur n l err]. unfold animate, action_at in *.
  cbn [mixerRef actionsRef currentActionRef loadedAnimations isLoading error] in *.
  destruct m as [mixer|]; [|reflexivity]. cbn. do 2 f_equal.
  apply list_eq. intros i. rewrite update_lookup.
  destruct (mixer !! i) as [a|] eqn:Ha; [|reflexivity]. cbn.
  now rewrite (Hidle i a Ha).
Qed.

Lemma delivers_is_load (es : list Event) :
  List.filter delivers (List.filter is_load es) = List.filter delivers es.
Proof.
  induction es as [|e es IH]; [reflexivity|]. cbn [List.filter].
  destruct e as [name [|a rest]|name|delta]; cbn [is_load delivers List.filter];
    now rewrite IH.
Qed.

(** X20. As long as no button has been pressed and the component is still
    loading, rendering frames changes nothing: the state is the one the
    loads alone produce. *)
Theorem frames_do_nothing_while_loading (events : list Event) :
  Forall (fun e => is_press e = false) events ->
  isLoading (run avatar_loaded events) = true ->
  run avatar_loaded events = run avatar_loaded (List.filter is_load events).
Proof.
  induction events as [|e es IH] using rev_ind; intros Hnp Hload; [reflexivity|].
  apply Forall_app in Hnp as [Hnp He]. apply Forall_cons in He as [He _].
  rewrite loading_while_below_three in Hload. apply Nat.ltb_lt in Hload.
  rewrite List.filter_app, length_app in Hload.
  assert (Hes : isLoading (run avatar_loaded es) = true)
    by (rewrite loading_while_below_three; apply Nat.ltb_lt; lia).
  specialize (IH Hnp Hes). rewrite List.filter_app, !run_app, IH.
  destruct e as [name animations|name|delta]; [reflexivity|discriminate He|].
  cbn [List.filter is_load run fold_left handle].
  apply animate_idle. intros action a Ha.
  assert (Hsel : nothing_selected (run avatar_loaded (List.filter is_load es))).
  { apply loads_nothing_selected.
    - apply List.Forall_forall. intros x Hx. now apply filter_In in Hx.
    - rewrite delivers_is_load. lia. }
  destruct Hsel as [_ Hidle]. now destruct (Hidle action a Ha).
Qed.

Lemma frames_do_nothing_while_loading_witness :
  run avatar_loaded
    [AnimationLoaded "walking" [mixamo_clip "walking"]; Frame (16 # 1000);
     AnimationLoaded "sitting" [mixamo_clip "sitting"]; Frame (33 # 1000)]
  = run avatar_loaded
      [AnimationLoaded "walking" [mixamo_clip "walking"];
       AnimationLoaded "sitting" [mixamo_clip "sitting"]].
Proof.
  apply (frames_do_nothing_while_loading
           [AnimationLoaded "walking" [mixamo_clip "walking"]; Frame (16 # 1000);
            AnimationLoaded "sitting" [mixamo_clip "sitting"]; Frame (33 # 1000)]).
  - repeat constructor.
  - reflexivity.
Defined.

